(** * Sine wave plotter: the view-state synchronizer of [qt_gui.py]

    A shallow embedding of [SineWavePlotter]: the stored bound [self.x], the
    three widgets that display it (slider, text field, result label), the
    plotted curve, and the three event handlers that keep them in step.

    Python floats are IEEE 754 binary64 numbers; they are modelled by the
    standard library's [spec_float] at precision 53 and maximal exponent
    1024, so every arithmetic step below rounds exactly as the interpreter
    does.  [np.sin] is the one operation taken as a parameter: it is the
    platform's libm routine and has no closed description.

    What the program relies on from its libraries is modelled as documented
    there:
    - [QSlider.setValue] clamps its argument to the slider's range and, when
      the value changes, emits [valueChanged] before it returns; the program
      connects that signal to [_on_slider_changed], so a refresh that moves
      the slider runs that slot in the middle of [_update_ui_values];
    - the binding hands [setValue] a C [int] and raises [OverflowError] for
      a Python integer outside that type;
    - [int] of an infinity raises [OverflowError], of a NaN [ValueError];
    - an exception that leaves a slot is reported and the event loop goes
      on, with the window as the slot left it;
    - [float(text)] reads a text as CPython does: Unicode white space and
      decimal digits count, as do underscores between digits;
    - [np.linspace] computes [arange(num) * step + start] and then overwrites
      the last entry with [stop].

    Layout: the numeric layer, the text layer ([float(...)] and
    [f"{v:.2f}"]), [np.linspace], the widget state with its handlers, and
    then the properties. *)

From Stdlib Require Import ZArith QArith Qabs List Bool String Ascii Lia Lqa.
From Stdlib Require Import SpecFloat.
Import ListNotations.
Local Open Scope Z_scope.

(** ** Python exceptions and results of fallible builtins *)

Inductive exn : Type :=
| ValueError
| OverflowError.

Inductive pyres (A : Type) : Type :=
| Val (a : A)
| Exc (e : exn).
Arguments Val {A} a.
Arguments Exc {A} e.

(** ** binary64 arithmetic *)

Module Float64.

Definition prec : Z := 53.
Definition emax : Z := 1024.

Definition float : Type := spec_float.

Definition zero : float := S754_zero false.

(** [float(n)] for a Python integer: the nearest binary64, ties to even. *)
Definition of_int (n : Z) : float := binary_normalize prec emax n 0 false.

Definition mul : float -> float -> float := SFmul prec emax.
Definition div : float -> float -> float := SFdiv prec emax.
Definition add : float -> float -> float := SFadd prec emax.
Definition sub : float -> float -> float := SFsub prec emax.
Definition ltb : float -> float -> bool := SFltb.
Definition eqb : float -> float -> bool := SFeqb.

Definition is_finite (v : float) : bool :=
  match v with
  | S754_zero _ | S754_finite _ _ _ => true
  | S754_infinity _ | S754_nan => false
  end.

(** The sign bit, as [math.copysign] reads it (NaN carries none here). *)
Definition signbit (v : float) : bool :=
  match v with
  | S754_zero s | S754_infinity s | S754_finite s _ _ => s
  | S754_nan => false
  end.

(** A value the format can hold: canonical mantissa, exponent in range. *)
Definition valid (v : float) : bool := valid_binary prec emax v.

(** [a / b] on two Python integers that both fit a binary64 exactly, as
    slider ticks and the scale factor do: the correctly rounded quotient. *)
Definition int_truediv (a b : Z) : float := div (of_int a) (of_int b).

(** The integer part of a finite float, rounded toward zero. *)
Definition trunc (s : bool) (m : positive) (e : Z) : Z :=
  let a := match e with
           | Zneg k => Z.shiftr (Zpos m) (Zpos k)
           | _ => Z.shiftl (Zpos m) e
           end in
  if s then - a else a.

(** [int(v)]: truncation; infinities and NaN raise. *)
Definition to_int (v : float) : pyres Z :=
  match v with
  | S754_zero _ => Val 0
  | S754_finite s m e => Val (trunc s m e)
  | S754_infinity _ => Exc OverflowError
  | S754_nan => Exc ValueError
  end.

(** The exact rational a float stands for (0 for infinities and NaN, which
    stand for none). *)
Definition to_Q (v : float) : Q :=
  match v with
  | S754_finite s m e =>
      let q := match e with
               | Zneg k => Zpos m # (2 ^ k)%positive
               | _ => inject_Z (Zpos m * 2 ^ e)
               end in
      if s then Qopp q else q
  | _ => 0%Q
  end.

(** [np.pi], bit pattern 0x400921FB54442D18. *)
Definition pi : float := S754_finite false 0x1921FB54442D18 (-51).

End Float64.

Import Float64.

(** ** Text: [float(str)] and fixed-point formatting *)

Module PyText.

Definition digit_val (c : ascii) : option Z :=
  let n := Z.of_nat (nat_of_ascii c) in
  if (48 <=? n) && (n <=? 57) then Some (n - 48) else None.

Definition is_digit (c : ascii) : bool :=
  match digit_val c with Some _ => true | None => false end.

Definition digit (c : ascii) : Prop := is_digit c = true.

Definition digit_char (d : Z) : ascii := ascii_of_nat (Z.to_nat (48 + d)).

(** White space that [float] strips from both ends of the text, C's
    [isspace] in the C locale: TAB..CR and SPACE. *)
Definition is_space (c : ascii) : bool :=
  let n := Z.of_nat (nat_of_ascii c) in
  ((9 <=? n) && (n <=? 13)) || (n =? 32).

Fixpoint lstrip (s : list ascii) : list ascii :=
  match s with
  | c :: r => if is_space c then lstrip r else s
  | [] => []
  end.

Definition strip (s : list ascii) : list ascii :=
  rev (lstrip (rev (lstrip s))).

(** Underscores may only stand between two digits; they are dropped before
    the number is read.  [prev] is the character just before [s]. *)
Fixpoint drop_underscores (prev : ascii) (s : list ascii)
  : option (list ascii) :=
  match s with
  | [] => if Ascii.eqb prev "_" then None else Some []
  | c :: r =>
      if Ascii.eqb c "_" then
        if is_digit prev then drop_underscores c r else None
      else if Ascii.eqb prev "_" && negb (is_digit c) then None
      else option_map (cons c) (drop_underscores c r)
  end.

(** The longest prefix of digits, and what follows it. *)
Fixpoint span_digits (s : list ascii) : list ascii * list ascii :=
  match s with
  | c :: r =>
      if is_digit c then
        let '(ds, rest) := span_digits r in (c :: ds, rest)
      else ([], s)
  | [] => ([], [])
  end.

Definition digits_value (ds : list ascii) : Z :=
  fold_left (fun acc c =>
               10 * acc + match digit_val c with Some d => d | None => 0 end)
            ds 0.

Definition parse_sign (s : list ascii) : bool * list ascii :=
  match s with
  | "-"%char :: r => (true, r)
  | "+"%char :: r => (false, r)
  | _ => (false, s)
  end.

(** [digits [. digits] [(e|E) [sign] digits]] with at least one mantissa
    digit, read to the end of the text: the decimal mantissa [M] and
    exponent [k] of the number [M * 10^k]. *)
Definition parse_decimal (s : list ascii) : option (Z * Z) :=
  let '(ip, r1) := span_digits s in
  let '(fp, r2) := match r1 with
                   | "."%char :: r => span_digits r
                   | _ => ([], r1)
                   end in
  match ip, fp with
  | [], [] => None
  | _, _ =>
      let M := digits_value ip * 10 ^ Z.of_nat (List.length fp) + digits_value fp in
      let k := - Z.of_nat (List.length fp) in
      match r2 with
      | [] => Some (M, k)
      | c :: r3 =>
          if Ascii.eqb c "e" || Ascii.eqb c "E" then
            let '(eneg, r4) := parse_sign r3 in
            match span_digits r4 with
            | ((_ :: _) as ed, []) =>
                let ex := digits_value ed in
                Some (M, k + (if eneg then - ex else ex))
            | _ => None
            end
          else None
      end
  end.

Definition lower (c : ascii) : ascii :=
  let n := nat_of_ascii c in
  if (65 <=? n)%nat && (n <=? 90)%nat then ascii_of_nat (n + 32) else c.

Definition parse_inf_or_nan (neg : bool) (s : list ascii) : option float :=
  let t := string_of_list_ascii (map lower s) in
  if String.eqb t "inf" || String.eqb t "infinity" then
    Some (S754_infinity neg)
  else if String.eqb t "nan" then Some S754_nan
  else None.

(** The binary64 nearest to [M * 10^k], ties to even ([0 <= M]). *)
Definition round_decimal (neg : bool) (M k : Z) : float :=
  match M with
  | Zpos p =>
      match k with
      | Zneg j =>
          let '(q, e, l) :=
            SFdiv_core_binary prec emax (Zpos p) 0 (Zpos (10 ^ j)) 0 in
          binary_round_aux prec emax neg q e l
      | _ => binary_round prec emax neg (Z.to_pos (Zpos p * 10 ^ k)) 0
      end
  | _ => S754_zero neg
  end.

(** The number between the white space at both ends of [s]. *)
Definition float_from_string_inner (s : list ascii) : option float :=
  let '(neg, r) := parse_sign (strip s) in
  match parse_decimal r with
  | Some (M, k) => Some (round_decimal neg M k)
  | None => parse_inf_or_nan neg r
  end.

(** *** Text beyond ASCII

    A [str] is a sequence of Unicode code points; the field's text is held
    here as its UTF-8 bytes.  Before [float] reads a text that is not pure
    ASCII, every code point from 127 on is replaced: white space by a
    space, a decimal digit of any script by the ASCII digit of the same
    value, and the first character that is neither by a question mark, at
    which the text is cut.  The two tables are those of the Unicode
    character database, version 14.0, which CPython 3.11 carries. *)

Definition byte (c : ascii) : Z := Z.of_nat (nat_of_ascii c).

Definition continuation (c : ascii) : bool :=
  (128 <=? byte c) && (byte c <=? 191).

Definition payload (c : ascii) : Z := byte c - 128.

Definition two_bytes (b0 b1 : ascii) : option Z :=
  if (194 <=? byte b0) && (byte b0 <=? 223) && continuation b1 then
    Some ((byte b0 - 192) * 64 + payload b1)
  else None.

Definition three_bytes (b0 b1 b2 : ascii) : option Z :=
  let cp := ((byte b0 - 224) * 64 + payload b1) * 64 + payload b2 in
  if (224 <=? byte b0) && (byte b0 <=? 239)
     && continuation b1 && continuation b2
     && (0x800 <=? cp) && negb ((0xD800 <=? cp) && (cp <=? 0xDFFF))
  then Some cp else None.

Definition four_bytes (b0 b1 b2 b3 : ascii) : option Z :=
  let cp := (((byte b0 - 240) * 64 + payload b1) * 64 + payload b2) * 64
            + payload b3 in
  if (240 <=? byte b0) && (byte b0 <=? 244)
     && continuation b1 && continuation b2 && continuation b3
     && (0x10000 <=? cp) && (cp <=? 0x10FFFF)
  then Some cp else None.

(** The code points of a text given by its UTF-8 bytes.  A byte that
    begins no well-formed sequence, which the encoding of a [str] never
    holds, stands for the code point of its own number. *)
Fixpoint utf8_decode (bs : list ascii) : list Z :=
  match bs with
  | [] => []
  | b0 :: r0 =>
      if byte b0 <? 128 then byte b0 :: utf8_decode r0
      else
        match r0 with
        | b1 :: r1 =>
            match two_bytes b0 b1 with
            | Some cp => cp :: utf8_decode r1
            | None =>
                match r1 with
                | b2 :: r2 =>
                    match three_bytes b0 b1 b2 with
                    | Some cp => cp :: utf8_decode r2
                    | None =>
                        match r2 with
                        | b3 :: r3 =>
                            match four_bytes b0 b1 b2 b3 with
                            | Some cp => cp :: utf8_decode r3
                            | None => byte b0 :: utf8_decode r0
                            end
                        | [] => byte b0 :: utf8_decode r0
                        end
                    end
                | [] => byte b0 :: utf8_decode r0
                end
            end
        | [] => [byte b0]
        end
  end.

(** [str.isspace] of one character. *)
Definition unicode_spaces : list Z :=
  [0x9; 0xA; 0xB; 0xC; 0xD; 0x1C; 0x1D; 0x1E; 0x1F; 0x20; 0x85; 0xA0;
   0x1680; 0x2000; 0x2001; 0x2002; 0x2003; 0x2004; 0x2005; 0x2006; 0x2007;
   0x2008; 0x2009; 0x200A; 0x2028; 0x2029; 0x202F; 0x205F; 0x3000].

Definition is_unicode_space (cp : Z) : bool :=
  existsb (Z.eqb cp) unicode_spaces.

(** The decimal digits of every script come in runs of ten, zero first;
    these are the code points of the zeros. *)
Definition decimal_zeros : list Z :=
  [0x30; 0x660; 0x6F0; 0x7C0; 0x966; 0x9E6; 0xA66; 0xAE6; 0xB66; 0xBE6;
   0xC66; 0xCE6; 0xD66; 0xDE6; 0xE50; 0xED0; 0xF20; 0x1040; 0x1090; 0x17E0;
   0x1810; 0x1946; 0x19D0; 0x1A80; 0x1A90; 0x1B50; 0x1BB0; 0x1C40; 0x1C50;
   0xA620; 0xA8D0; 0xA900; 0xA9D0; 0xA9F0; 0xAA50; 0xABF0; 0xFF10; 0x104A0;
   0x10D30; 0x11066; 0x110F0; 0x11136; 0x111D0; 0x112F0; 0x11450; 0x114D0;
   0x11650; 0x116C0; 0x11730; 0x118E0; 0x11950; 0x11C50; 0x11D50; 0x11DA0;
   0x16A60; 0x16AC0; 0x16B50; 0x1D7CE; 0x1D7D8; 0x1D7E2; 0x1D7EC; 0x1D7F6;
   0x1E140; 0x1E2F0; 0x1E950; 0x1FBF0].

Definition to_decimal_digit (cp : Z) : option Z :=
  match find (fun z => (z <=? cp) && (cp <? z + 10)) decimal_zeros with
  | Some z => Some (cp - z)
  | None => None
  end.

Fixpoint transform (cps : list Z) : list ascii :=
  match cps with
  | [] => []
  | cp :: r =>
      if cp <? 127 then ascii_of_nat (Z.to_nat cp) :: transform r
      else if is_unicode_space cp then " "%char :: transform r
      else
        match to_decimal_digit cp with
        | Some d => digit_char d :: transform r
        | None => ["?"%char]
        end
  end.

(** A text that is pure ASCII is read as it is. *)
Definition transform_decimal_and_space_to_ascii (bs : list ascii)
  : list ascii :=
  let cps := utf8_decode bs in
  if forallb (fun cp => cp <? 128) cps then bs else transform cps.

(** [float(text)]: the text is brought to ASCII, underscores between
    digits are dropped, and the number between the white space at both
    ends is read. *)
Definition py_float (text : string) : pyres float :=
  let s := transform_decimal_and_space_to_ascii (list_ascii_of_string text) in
  match drop_underscores "000"%char s with
  | Some d =>
      match float_from_string_inner d with
      | Some v => Val v
      | None => Exc ValueError
      end
  | None => Exc ValueError
  end.

(** Nearest integer to [a / b], ties to even ([0 <= a], [0 < b]). *)
Definition div_half_even (a b : Z) : Z :=
  let q := a / b in
  let r := a mod b in
  match 2 * r ?= b with
  | Lt => q
  | Gt => q + 1
  | Eq => if Z.even q then q else q + 1
  end.

(** [|v| * 10^p] rounded to an integer, for a finite nonzero float. *)
Definition scaled_round (p : nat) (m : positive) (e : Z) : Z :=
  match e with
  | Zneg k => div_half_even (Zpos m * 10 ^ Z.of_nat p) (Zpos (2 ^ k))
  | _ => Zpos m * 2 ^ e * 10 ^ Z.of_nat p
  end.

(** The last [w] decimal digits of [n], most significant first. *)
Fixpoint fixed_digits (w : nat) (n : Z) : list ascii :=
  match w with
  | O => []
  | S w' => fixed_digits w' (n / 10) ++ [digit_char (n mod 10)]
  end.

Fixpoint strip_zeros (ds : list ascii) : list ascii :=
  match ds with
  | c :: (_ :: _) as r => if Ascii.eqb c "0" then strip_zeros r else ds
  | _ => ds
  end.

(** Decimal digits of [0 <= n], no leading zero except for 0 itself. *)
Definition int_digits (n : Z) : list ascii :=
  strip_zeros (fixed_digits (S (Z.to_nat (Z.log2 n))) n).

Definition fixed_point (p : nat) (n : Z) : list ascii :=
  int_digits (n / 10 ^ Z.of_nat p) ++
  match p with
  | O => []
  | S _ => "."%char :: fixed_digits p (n mod 10 ^ Z.of_nat p)
  end.

(** [f"{v:.pf}"]: [p] digits after the point, correctly rounded. *)
Definition format_f (p : nat) (v : float) : string :=
  match v with
  | S754_nan => "nan"
  | S754_infinity s => if s then "-inf" else "inf"
  | S754_zero s =>
      ((if s then "-" else "") ++ string_of_list_ascii (fixed_point p 0))%string
  | S754_finite s m e =>
      ((if s then "-" else "") ++
       string_of_list_ascii (fixed_point p (scaled_round p m e)))%string
  end.

End PyText.

Import PyText.

(** ** [np.linspace] *)

Module Numpy.

(** [np.arange(0, num, dtype=float)]. *)
Definition arange (num : nat) : list float :=
  map (fun i => of_int (Z.of_nat i)) (seq 0 num).

(** [y[-1] = stop]. *)
Definition set_last (y : list float) (stop : float) : list float :=
  removelast y ++ [stop].

(** [np.linspace(start, stop, num)] with the default [endpoint=True]:
    the ramp [0 .. num-1] times the step (or, when the step underflows to
    zero, divided first and then scaled by the span), shifted by [start],
    with the last entry overwritten by [stop]. *)
Definition linspace (start stop : float) (num : nat) : list float :=
  let dv := Z.of_nat num - 1 in
  let delta := sub stop start in
  let y := arange num in
  let y1 :=
    if 0 <? dv then
      let step := div delta (of_int dv) in
      if eqb step zero then
        map (fun v => mul (div v (of_int dv)) delta) y
      else map (fun v => mul v step) y
    else map (fun v => mul v delta) y in
  let y2 := map (fun v => add v start) y1 in
  if (1 <? num)%nat then set_last y2 stop else y2.

End Numpy.

Import Numpy.

(** ** The window: state, widgets and handlers *)

Record plot : Type := {
  x_vals : list float;
  y_vals : list float;
  title : string;
  xlabel : string;
  ylabel : string
}.

(** [x] is [self.x]; the other fields are what the widgets hold:
    [slider.value()], [input_field.text()], [result_label.text()] and the
    curve last drawn on [axes]. *)
Record state : Type := {
  x : float;
  slider : Z;
  input_field : string;
  result_label : string;
  axes : plot
}.

Definition set_x (v : float) (s : state) : state :=
  {| x := v; slider := slider s; input_field := input_field s;
     result_label := result_label s; axes := axes s |}.

Definition set_slider (v : Z) (s : state) : state :=
  {| x := x s; slider := v; input_field := input_field s;
     result_label := result_label s; axes := axes s |}.

Definition set_input_field (t : string) (s : state) : state :=
  {| x := x s; slider := slider s; input_field := t;
     result_label := result_label s; axes := axes s |}.

Definition set_result_label (t : string) (s : state) : state :=
  {| x := x s; slider := slider s; input_field := input_field s;
     result_label := t; axes := axes s |}.

Definition set_axes (p : plot) (s : state) : state :=
  {| x := x s; slider := slider s; input_field := input_field s;
     result_label := result_label s; axes := p |}.

(** A handler either returns, raises with the state as it stood at the
    [raise], or exhausts the budget of nested signal deliveries. *)
Inductive outcome (A : Type) : Type :=
| Return (a : A) (s : state)
| Raise (e : exn) (s : state)
| OutOfFuel.
Arguments Return {A} a s.
Arguments Raise {A} e s.
Arguments OutOfFuel {A}.

Definition M (A : Type) : Type := state -> outcome A.

Definition ret {A : Type} (a : A) : M A := fun s => Return a s.

Definition bind {A B : Type} (m : M A) (k : A -> M B) : M B :=
  fun s =>
    match m s with
    | Return a s' => k a s'
    | Raise e s' => Raise e s'
    | OutOfFuel => OutOfFuel
    end.

Definition get : M state := fun s => Return s s.

Definition modify (f : state -> state) : M unit := fun s => Return tt (f s).

Definition lift {A : Type} (r : pyres A) : M A :=
  fun s => match r with Val a => Return a s | Exc e => Raise e s end.

(** [try: body  except e: handler]. *)
Definition exn_eqb (a b : exn) : bool :=
  match a, b with
  | ValueError, ValueError | OverflowError, OverflowError => true
  | _, _ => false
  end.

Definition try_except {A : Type} (body : M A) (e : exn) (handler : M A) : M A :=
  fun s =>
    match body s with
    | Raise e' s' => if exn_eqb e' e then handler s' else Raise e' s'
    | o => o
    end.

Declare Scope py_scope.
Delimit Scope py_scope with py.
Notation "v <- m ;; k" := (bind m (fun v => k))
  (at level 61, m at next level, right associativity) : py_scope.
Notation "m ;; k" := (bind m (fun _ => k))
  (at level 61, right associativity) : py_scope.
Local Open Scope py_scope.

(** Constants of [__init__]. *)
Definition X_MAX_DEFAULT : float := mul (of_int 4) pi.
Definition SLIDER_SCALE_FACTOR : Z := 10.
Definition SLIDER_MAX : Z :=
  match to_int (mul (mul X_MAX_DEFAULT (of_int SLIDER_SCALE_FACTOR)) (of_int 2)) with
  | Val n => n
  | Exc _ => 0
  end.

(** The slider's range, [setRange(1, SLIDER_MAX)], and the clamp every
    [setValue] applies. *)
Definition slider_minimum : Z := 1.
Definition slider_maximum : Z := SLIDER_MAX.

Definition bound (v : Z) : Z := Z.max slider_minimum (Z.min slider_maximum v).

(** The binding passes [setValue]'s argument as a C [int]. *)
Definition fits_c_int (v : Z) : bool := (- 2 ^ 31 <=? v) && (v <? 2 ^ 31).

(** [QSlider.setValue]: the argument is clamped to the range; when the
    clamped value differs from the current one it is stored and
    [valueChanged] is emitted, which runs the connected slot before
    [setValue] returns.  The slot is only ever delivered a tick of the
    range, where it returns normally, so how an exception would cross the
    signal delivery never comes into play. *)
Definition QSlider_setValue (valueChanged : Z -> M unit) (value : Z) : M unit :=
  fun s =>
    if fits_c_int value then
      let v := bound value in
      if v =? slider s then Return tt s
      else valueChanged v (set_slider v s)
    else Raise OverflowError s.

(** [int(self.x * self.SLIDER_SCALE_FACTOR)]: the tick a value asks for. *)
Definition value_to_tick (v : float) : pyres Z :=
  to_int (mul v (of_int SLIDER_SCALE_FACTOR)).

Section Plotter.

(** [np.sin], applied alike to a scalar and to each entry of an array. *)
Variable np_sin : float -> float.

Definition result_text (v : float) : string :=
  ("sin(" ++ format_f 2 v ++ ") = " ++ format_f 4 (np_sin v))%string.

Definition plot_of (v : float) : plot :=
  let xs := linspace (of_int 0) v 1000 in
  {| x_vals := xs;
     y_vals := map np_sin xs;
     title := ("sin(x): 0 to " ++ format_f 2 v)%string;
     xlabel := "x";
     ylabel := "y" |}.

(** The curve redrawn from the stored value. *)
Definition drawn (s : state) : state := set_axes (plot_of (x s)) s.

(** Text field and label rewritten from the stored value. *)
Definition refreshed (s : state) : state :=
  set_result_label (result_text (x s))
    (set_input_field (format_f 2 (x s)) s).

Definition update_plot : M unit := modify drawn.

(** [_update_ui_values], with the slot connected to [slider.valueChanged]
    as a parameter. *)
Definition update_ui_values_with (valueChanged : Z -> M unit) : M unit :=
  s <- get ;;
  tick <- lift (value_to_tick (x s)) ;;
  QSlider_setValue valueChanged tick ;;
  modify (fun s => set_input_field (format_f 2 (x s)) s) ;;
  modify (fun s => set_result_label (result_text (x s)) s).

(** [fuel] bounds how deep [valueChanged] may re-enter the slot. *)
Fixpoint _on_slider_changed (fuel : nat) (value : Z) : M unit :=
  match fuel with
  | O => fun _ => OutOfFuel
  | S fuel' =>
      modify (set_x (int_truediv value SLIDER_SCALE_FACTOR)) ;;
      update_ui_values_with (_on_slider_changed fuel') ;;
      update_plot
  end.

Definition _update_ui_values (fuel : nat) : M unit :=
  update_ui_values_with (_on_slider_changed fuel).

Definition _on_input_field_changed (fuel : nat) : M unit :=
  try_except
    (s <- get ;;
     val <- lift (py_float (input_field s)) ;;
     if ltb (of_int 0) val then
       modify (set_x val) ;;
       _update_ui_values fuel ;;
       update_plot
     else ret tt)
    ValueError
    (_update_ui_values fuel).

Definition _on_reset_clicked (fuel : nat) : M unit :=
  modify (set_x X_MAX_DEFAULT) ;;
  _update_ui_values fuel ;;
  update_plot.

(** [_setup_ui] runs before [_connect_signals]: no slot is connected yet,
    so the slider can be positioned without any handler running. *)
Definition _setup_ui : M unit :=
  modify (fun s => set_input_field (format_f 2 (x s)) s) ;;
  modify (fun s => set_slider (bound (slider s)) s) ;;
  s <- get ;;
  tick <- lift (value_to_tick (x s)) ;;
  QSlider_setValue (fun _ => ret tt) tick ;;
  modify (fun s => set_result_label (result_text (x s)) s).

(** Freshly built widgets: an empty field and label, a slider at Qt's
    default value 0, nothing drawn. *)
Definition blank : state :=
  {| x := zero; slider := 0; input_field := ""; result_label := "";
     axes := {| x_vals := []; y_vals := []; title := "";
                xlabel := ""; ylabel := "" |} |}.

Definition __init__ : M unit :=
  modify (set_x X_MAX_DEFAULT) ;;
  _setup_ui ;;
  update_plot.

(** The state an event leaves behind.  An exception that escapes a slot is
    reported by the event loop and the program goes on with the state as
    the slot left it. *)
Definition settle (o : outcome unit) : option state :=
  match o with
  | Return _ s | Raise _ s => Some s
  | OutOfFuel => None
  end.

Definition initial : state :=
  match settle (__init__ blank) with
  | Some s => s
  | None => blank
  end.

(** The operations of the specification.  A slider event carries the
    position the slider has just taken; a text event is the user's text
    being committed. *)
Inductive op : Type :=
| SetFromSlider (t : Z)
| SetFromText (raw : string)
| Reset.

Definition run_op (fuel : nat) (o : op) (s : state) : outcome unit :=
  match o with
  | SetFromSlider t => _on_slider_changed fuel t (set_slider t s)
  | SetFromText raw => _on_input_field_changed fuel (set_input_field raw s)
  | Reset => _on_reset_clicked fuel s
  end.

Definition valid_op (o : op) : Prop :=
  match o with
  | SetFromSlider t => slider_minimum <= t <= slider_maximum
  | _ => True
  end.

Fixpoint run (fuel : nat) (ops : list op) (s : state) : option state :=
  match ops with
  | [] => Some s
  | o :: rest =>
      match settle (run_op fuel o s) with
      | Some s' => run fuel rest s'
      | None => None
      end
  end.

(** *** Closed forms used to state the properties *)

(** The slot has run to completion with the slider at tick [t]. *)
Definition moved_to (t : Z) (s : state) : state :=
  drawn (refreshed (set_x (int_truediv t SLIDER_SCALE_FACTOR)
                          (set_slider t s))).

(** What [_update_ui_values] comes to: it raises when the tick cannot be
    computed or passed on; it rewrites the two texts when the slider is
    already at the clamped tick; otherwise the slider moves and the slot
    runs in between. *)
Definition refresh_outcome (s : state) : outcome unit :=
  match value_to_tick (x s) with
  | Exc e => Raise e s
  | Val n =>
      if fits_c_int n then
        if bound n =? slider s then Return tt (refreshed s)
        else Return tt (moved_to (bound n) s)
      else Raise OverflowError s
  end.

(** The value is positive and the slider within its range. *)
Definition well_formed (s : state) : Prop :=
  ltb zero (x s) = true /\ slider_minimum <= slider s <= slider_maximum.

(** The slider stands where the value's tick puts it, whenever that tick
    can be computed and passed to the slider. *)
Definition in_step (s : state) : Prop :=
  forall n, value_to_tick (x s) = Val n -> fits_c_int n = true ->
            bound n = slider s.

(** Label and curve are the ones computed from the stored value. *)
Definition displayed (s : state) : Prop :=
  result_label s = result_text (x s) /\ axes s = plot_of (x s).

(** Label and curve follow the value whenever the value's tick can be
    computed and passed to the slider. *)
Definition shown (s : state) : Prop :=
  forall n, value_to_tick (x s) = Val n -> fits_c_int n = true ->
            displayed s.

(** The curve on the axes is the one drawn for some value. *)
Definition curve_drawn (s : state) : Prop :=
  exists w, axes s = plot_of w.

End Plotter.

(** One tick survives the trip to a value and back, and its value is
    positive. *)
Definition tick_ok (t : Z) : bool :=
  let v := int_truediv t SLIDER_SCALE_FACTOR in
  match value_to_tick v with
  | Val u => (u =? t) && ltb zero v && is_finite v && valid v
  | Exc _ => false
  end.

(** Two floats with the same sign, mantissa and exponent. *)
Definition identical (a b : float) : bool :=
  match a, b with
  | S754_zero s, S754_zero t => Bool.eqb s t
  | S754_infinity s, S754_infinity t => Bool.eqb s t
  | S754_nan, S754_nan => true
  | S754_finite s m e, S754_finite t n g =>
      Bool.eqb s t && Pos.eqb m n && Z.eqb e g
  | _, _ => false
  end.

(** A tick written with one decimal, as the text field shows it, reads as
    the value the slider gives that tick. *)
Definition decimal_tick_ok (t : Z) : bool :=
  identical (round_decimal false (10 * t) (-2))
            (int_truediv t SLIDER_SCALE_FACTOR).

(** * Properties *)

(** ** Rounding never produces NaN, and keeps the sign it is given *)

Section RoundingFacts.

Lemma digits2_pos_size (p : positive) : digits2_pos p = Pos.size p.
Proof. induction p; simpl; congruence. Qed.

Lemma Zdigits2_log2 (p : positive) :
  Zdigits2 (Zpos p) = Z.log2 (Zpos p) + 1.
Proof.
  unfold Zdigits2. rewrite digits2_pos_size.
  destruct p; simpl; rewrite ?Pos2Z.inj_succ; lia.
Qed.

(** A number below [2^d] has at most [d] binary digits. *)
Lemma Zdigits2_le (m d : Z) : 0 <= m < 2 ^ d -> 0 <= d -> Zdigits2 m <= d.
Proof.
  intros [H0 H1] Hd. destruct m as [|p|p]; [exact Hd| |lia].
  rewrite Zdigits2_log2.
  assert (Z.log2 (Zpos p) < d); [|lia].
  apply Z.log2_lt_pow2; lia.
Qed.

Lemma Zdigits2_bound (p : positive) : Zpos p < 2 ^ Zdigits2 (Zpos p).
Proof.
  rewrite Zdigits2_log2.
  apply (Z.log2_spec (Zpos p)). lia.
Qed.

Lemma fexp_mono (a b : Z) : a <= b -> fexp prec emax a <= fexp prec emax b.
Proof. unfold fexp. lia. Qed.

Lemma shr_1_bounds (mrs : shr_record) :
  0 <= shr_m mrs -> 0 <= shr_m (shr_1 mrs) <= shr_m mrs.
Proof.
  destruct mrs as [m r s]. destruct m as [|[p|p|]|p]; simpl; lia.
Qed.

Lemma iter_shr_1_bounds (n : positive) :
  forall mrs, 0 <= shr_m mrs ->
              0 <= shr_m (iter_pos shr_1 n mrs) <= shr_m mrs.
Proof.
  induction n as [n IH|n IH|]; intros mrs H; simpl.
  - pose proof (shr_1_bounds mrs H) as H1.
    pose proof (IH (shr_1 mrs) (proj1 H1)) as H2.
    pose proof (IH _ (proj1 H2)). lia.
  - pose proof (IH mrs H) as H1.
    pose proof (IH _ (proj1 H1)). lia.
  - now apply shr_1_bounds.
Qed.

Lemma shr_m_of_loc (m : Z) (l : location) : shr_m (shr_record_of_loc m l) = m.
Proof. destruct l as [|[ | | ]]; reflexivity. Qed.

(** Shifting to the format's exponent: the mantissa does not grow and stays
    non-negative; the exponent is the larger of the old one and the
    format's. *)
Lemma shr_fexp_bounds (m e : Z) (l : location) :
  0 <= m ->
  let '(mrs, e') := shr_fexp prec emax m e l in
  0 <= shr_m mrs <= m
  /\ e' = Z.max e (fexp prec emax (Zdigits2 m + e)).
Proof.
  intros Hm. unfold shr_fexp, shr.
  destruct (fexp prec emax (Zdigits2 m + e) - e) as [|n|n] eqn:En.
  - rewrite shr_m_of_loc. lia.
  - pose proof (iter_shr_1_bounds n (shr_record_of_loc m l)) as H.
    rewrite shr_m_of_loc in H. split; [now apply H|lia].
  - rewrite shr_m_of_loc. lia.
Qed.

Lemma round_nearest_even_bounds (m : Z) (l : location) :
  m <= round_nearest_even m l <= m + 1.
Proof.
  unfold round_nearest_even.
  destruct l as [|[ | | ]]; try destruct (Z.even m); lia.
Qed.

(** The rounded result carries the sign asked for, and is not NaN when the
    mantissa is non-negative. *)
Lemma binary_round_aux_shape (sx : bool) (mx ex : Z) (lx : location) :
  0 <= mx ->
  binary_round_aux prec emax sx mx ex lx = S754_zero sx
  \/ binary_round_aux prec emax sx mx ex lx = S754_infinity sx
  \/ exists m e, binary_round_aux prec emax sx mx ex lx = S754_finite sx m e.
Proof.
  intros Hm. unfold binary_round_aux.
  pose proof (shr_fexp_bounds mx ex lx Hm) as H1.
  destruct (shr_fexp prec emax mx ex lx) as [mrs1 e1].
  pose proof (round_nearest_even_bounds (shr_m mrs1) (loc_of_shr_record mrs1)) as H2.
  set (m1 := round_nearest_even (shr_m mrs1) (loc_of_shr_record mrs1)) in *.
  assert (Hm1 : 0 <= m1) by lia.
  pose proof (shr_fexp_bounds m1 e1 loc_Exact Hm1) as H3.
  destruct (shr_fexp prec emax m1 e1 loc_Exact) as [mrs2 e2].
  destruct (shr_m mrs2) as [|p|p]; [now left| |lia].
  destruct (e2 <=? emax - prec); [right; right; eauto | right; now left].
Qed.

(** Overflow is excluded when mantissa and exponent are small enough. *)
Lemma binary_round_aux_finite (sx : bool) (mx ex : Z) (lx : location)
      (D E : Z) :
  0 <= mx < 2 ^ D -> 0 <= D -> ex <= E ->
  fexp prec emax (D + 1 + Z.max E (fexp prec emax (D + E))) <= emax - prec ->
  Z.max E (fexp prec emax (D + E)) <= emax - prec ->
  is_finite (binary_round_aux prec emax sx mx ex lx) = true.
Proof.
  intros Hm HD HE Hb1 Hb2. unfold binary_round_aux.
  pose proof (shr_fexp_bounds mx ex lx (proj1 Hm)) as H1.
  destruct (shr_fexp prec emax mx ex lx) as [mrs1 e1].
  destruct H1 as [H1 He1].
  pose proof (round_nearest_even_bounds (shr_m mrs1) (loc_of_shr_record mrs1)) as H2.
  set (m1 := round_nearest_even (shr_m mrs1) (loc_of_shr_record mrs1)) in *.
  assert (Hm1 : 0 <= m1) by lia.
  pose proof (shr_fexp_bounds m1 e1 loc_Exact Hm1) as H3.
  destruct (shr_fexp prec emax m1 e1 loc_Exact) as [mrs2 e2].
  destruct H3 as [H3 He2].
  assert (Hd : Zdigits2 mx <= D) by (apply Zdigits2_le; lia).
  assert (Hd1 : Zdigits2 m1 <= D + 1).
  { apply Zdigits2_le; [|lia]. rewrite Z.pow_add_r by lia. lia. }
  assert (He1' : e1 <= Z.max E (fexp prec emax (D + E))).
  { pose proof (fexp_mono (Zdigits2 mx + ex) (D + E)). lia. }
  assert (He2' : e2 <= emax - prec).
  { pose proof (fexp_mono (Zdigits2 m1 + e1)
                          (D + 1 + Z.max E (fexp prec emax (D + E)))).
    lia. }
  destruct (shr_m mrs2) as [|p|p]; [reflexivity| |lia].
  apply Z.leb_le in He2'. now rewrite He2'.
Qed.

Lemma valid_binary_bounds (s : bool) (m : positive) (e : Z) :
  valid_binary prec emax (S754_finite s m e) = true ->
  Zdigits2 (Zpos m) <= 53 /\ Zdigits2 (Zpos m) + e <= 1024.
Proof.
  unfold valid_binary, bounded, canonical_mantissa. intros H.
  apply andb_prop in H. destruct H as [H1 H2].
  apply Z.eqb_eq in H1. apply Z.leb_le in H2.
  unfold fexp, emin, prec, emax in *. cbn [Zdigits2]. lia.
Qed.

(** The step of a 1000-point ramp: dividing a binary64 by 999 cannot
    overflow. *)
Lemma div_999_finite (s : bool) (m : positive) (e : Z) :
  valid_binary prec emax (S754_finite s m e) = true ->
  is_finite (div (S754_finite s m e) (of_int 999)) = true.
Proof.
  intros Hv. destruct (valid_binary_bounds s m e Hv) as [Hd Hde].
  change (of_int 999) with (S754_finite false 8787296929185792 (-43)).
  unfold div, SFdiv, SFdiv_core_binary.
  change (Zdigits2 8787296929185792) with 53.
  set (d1 := Zdigits2 (Zpos m)) in *.
  set (e' := Z.min (fexp prec emax (d1 + e - (53 + -43))) (e - -43)).
  set (m' := match e - -43 - e' with
             | 0 => Zpos m
             | Zpos _ => Z.shiftl (Zpos m) (e - -43 - e')
             | Zneg _ => 0
             end).
  assert (Hd1 : 0 < d1) by (unfold d1; cbn; lia).
  assert (He' : e' <= 961).
  { unfold e'. pose proof (fexp_mono (d1 + e - (53 + -43)) 1014).
    unfold fexp, emin, prec, emax in *. lia. }
  assert (Hm' : 0 <= m' < 2 ^ 106).
  { pose proof (Zdigits2_bound m) as Hb. fold d1 in Hb.
    unfold m'. destruct (e - -43 - e') as [|sh|sh] eqn:Es.
    - split; [lia|]. apply Z.lt_le_trans with (2 ^ d1); [exact Hb|].
      apply Z.pow_le_mono_r; lia.
    - rewrite Z.shiftl_mul_pow2 by lia.
      assert (Hs : Zpos sh <= 106 - d1).
      { unfold e', fexp, emin, prec, emax in Es. lia. }
      split; [lia|].
      apply Z.lt_le_trans with (2 ^ d1 * 2 ^ Zpos sh).
      + apply Z.mul_lt_mono_pos_r; [apply Z.pow_pos_nonneg; lia|exact Hb].
      + rewrite <- Z.pow_add_r by lia. apply Z.pow_le_mono_r; lia.
    - split; [lia|]. apply Z.pow_pos_nonneg; lia. }
  destruct (Z.div_eucl m' 8787296929185792) as [q r] eqn:Hqr.
  assert (Hq : q = m' / 8787296929185792) by (unfold Z.div; now rewrite Hqr).
  assert (Hq' : 0 <= q < 2 ^ 54).
  { subst q. split; [apply Z.div_pos; lia|].
    apply Z.div_lt_upper_bound; [lia|].
    apply Z.lt_le_trans with (2 ^ 106); [apply Hm'|].
    change (2 ^ 106) with (2 ^ 52 * 2 ^ 54).
    apply Z.mul_le_mono_nonneg_r; [apply Z.pow_nonneg; lia|].
    change (2 ^ 52) with 4503599627370496. lia. }
  apply (binary_round_aux_finite _ q e' _ 54 961); auto; try lia;
    vm_compute; discriminate.
Qed.

(** *** Signs *)

Lemma signbit_round_aux (sx : bool) (mx ex : Z) (lx : location) :
  0 <= mx -> sx = false ->
  signbit (binary_round_aux prec emax sx mx ex lx) = false.
Proof.
  intros Hm ->.
  destruct (binary_round_aux_shape false mx ex lx Hm) as [H|[H|[m [e H]]]];
    now rewrite H.
Qed.

Lemma signbit_of_int (n : Z) : 0 <= n -> signbit (of_int n) = false.
Proof.
  intros Hn. unfold of_int, binary_normalize.
  destruct n as [|p|p]; [reflexivity| |lia].
  unfold binary_round. destruct (shl_align _ _ _) as [mz ez].
  apply signbit_round_aux; [lia|reflexivity].
Qed.

Lemma signbit_mul (a b : float) :
  signbit a = false -> signbit b = false -> signbit (mul a b) = false.
Proof.
  destruct a as [sa|sa| |sa ma ea], b as [sb|sb| |sb mb eb];
    cbn [signbit]; intros Ha Hb; subst; try reflexivity.
  apply signbit_round_aux; [lia|reflexivity].
Qed.

Lemma signbit_div (a b : float) :
  signbit a = false -> signbit b = false -> signbit (div a b) = false.
Proof.
  destruct a as [sa|sa| |sa ma ea], b as [sb|sb| |sb mb eb];
    cbn [signbit]; intros Ha Hb; subst; try reflexivity.
  unfold div, SFdiv, SFdiv_core_binary.
  match goal with
  | |- context [Z.div_eucl ?a ?b] =>
      assert (Ha : 0 <= a);
      [| destruct (Z.div_eucl a b) as [q r] eqn:Hqr;
         assert (Hq : q = a / b) by (unfold Z.div; now rewrite Hqr) ]
  end.
  - match goal with
    | |- 0 <= match ?sh with _ => _ end =>
        destruct sh eqn:Es; [lia| |lia]
    end.
    apply Z.shiftl_nonneg. lia.
  - apply signbit_round_aux; [|reflexivity].
    subst q. apply Z.div_pos; lia.
Qed.

(** Adding [+0.0] changes nothing but a negative zero. *)
Lemma add_zero_r (w : float) : signbit w = false -> add w zero = w.
Proof. destruct w as [[|]|[|]| |sw mw ew]; cbn; intros H; congruence. Qed.

(** A finite float above zero is a positive mantissa with its exponent. *)
Lemma positive_finite (v : float) :
  is_finite v = true -> ltb zero v = true ->
  exists m e, v = S754_finite false m e.
Proof.
  destruct v as [s|s| |[|] m e]; cbn; try discriminate.
  intros _ _. now exists m, e.
Qed.

(** *** Reading a decimal with two places *)


Lemma Zdigits2_lower (p : positive) : 2 ^ (Zdigits2 (Zpos p) - 1) <= Zpos p.
Proof.
  rewrite Zdigits2_log2. replace (Z.log2 (Zpos p) + 1 - 1) with (Z.log2 (Zpos p)) by lia.
  apply (Z.log2_spec (Zpos p)). lia.
Qed.

Lemma shr_1_div2 (mrs : shr_record) :
  0 <= shr_m mrs -> shr_m (shr_1 mrs) = shr_m mrs / 2.
Proof.
  destruct mrs as [m r s]. destruct m as [|[p|p|]|p]; cbn [shr_m shr_1]; intros H;
    try reflexivity; try lia.
  - rewrite Pos2Z.inj_xI. apply (Z.div_unique _ 2 _ 1); lia.
  - rewrite Pos2Z.inj_xO. apply (Z.div_unique _ 2 _ 0); lia.
Qed.

Lemma iter_shr_1_div (n : positive) :
  forall mrs, 0 <= shr_m mrs ->
              shr_m (iter_pos shr_1 n mrs) = shr_m mrs / 2 ^ Zpos n.
Proof.
  induction n as [n IH|n IH|]; intros mrs H; cbn [iter_pos].
  - pose proof (shr_1_bounds mrs H) as H1.
    pose proof (iter_shr_1_bounds n (shr_1 mrs) (proj1 H1)) as H2.
    rewrite IH by apply H2. rewrite IH by apply H1. rewrite shr_1_div2 by exact H.
    assert (E : 2 ^ Zpos n~1 = 2 * (2 ^ Zpos n * 2 ^ Zpos n)).
    { rewrite (Pos2Z.inj_xI n).
      replace (2 * Zpos n + 1) with (1 + Zpos n + Zpos n) by lia.
      rewrite !Z.pow_add_r by lia. change (2 ^ 1) with 2. ring. }
    pose proof (Z.pow_pos_nonneg 2 (Zpos n)).
    rewrite !Z.div_div by lia.
    f_equal. rewrite E. ring.
  - pose proof (iter_shr_1_bounds n mrs H) as H2.
    rewrite IH by apply H2. rewrite IH by exact H.
    assert (E : 2 ^ Zpos n~0 = 2 ^ Zpos n * 2 ^ Zpos n).
    { rewrite (Pos2Z.inj_xO n).
      replace (2 * Zpos n) with (Zpos n + Zpos n) by lia.
      now rewrite Z.pow_add_r by lia. }
    pose proof (Z.pow_pos_nonneg 2 (Zpos n)).
    rewrite Z.div_div by lia.
    f_equal. now rewrite E.
  - rewrite shr_1_div2 by exact H. reflexivity.
Qed.

(** Shifting to the format's exponent divides the mantissa by the power of
    two that the exponent gains. *)
Lemma shr_fexp_div (m e : Z) (l : location) :
  0 <= m ->
  let n := Z.max 0 (fexp prec emax (Zdigits2 m + e) - e) in
  let '(mrs, e') := shr_fexp prec emax m e l in
  shr_m mrs = m / 2 ^ n /\ e' = e + n.
Proof.
  intros Hm. unfold shr_fexp, shr.
  destruct (fexp prec emax (Zdigits2 m + e) - e) as [|n|n] eqn:En; cbv zeta.
  - rewrite shr_m_of_loc. cbn. rewrite Z.div_1_r. lia.
  - rewrite iter_shr_1_div by (rewrite shr_m_of_loc; exact Hm).
    rewrite shr_m_of_loc. replace (Z.max 0 (Zpos n)) with (Zpos n) by lia. lia.
  - rewrite shr_m_of_loc. replace (Z.max 0 (Zneg n)) with 0 by lia.
    cbn. rewrite Z.div_1_r. lia.
Qed.

Lemma Zdigits2_eq (m k : Z) :
  1 <= k -> 2 ^ (k - 1) <= m < 2 ^ k -> Zdigits2 m = k.
Proof.
  intros Hk [H1 H2].
  assert (Hm : 0 < m) by (pose proof (Z.pow_pos_nonneg 2 (k - 1)); lia).
  destruct m as [|p|p]; try lia.
  rewrite Zdigits2_log2.
  rewrite (Z.log2_unique (Zpos p) (k - 1)); try lia.
  replace (Z.succ (k - 1)) with k by lia. lia.
Qed.

(** The quotient that [float] starts from when it reads [N / 100]: at least
    53 bits of it, and the remainder. *)
Lemma div_core_100 (N : positive) :
  let '(q, e', l) := SFdiv_core_binary prec emax (Zpos N) 0 100 0 in
  exists s r,
    0 <= s <= 59 /\ e' = - s
    /\ Zpos N * 2 ^ s = 100 * q + r /\ 0 <= r < 100
    /\ 2 ^ 52 <= q.
Proof.
  unfold SFdiv_core_binary. change (Zdigits2 100) with 7.
  pose proof (Zdigits2_lower N) as HL.
  pose proof (Zdigits2_bound N) as HU.
  set (d1 := Zdigits2 (Zpos N)) in *.
  assert (Hd1 : 1 <= d1) by (unfold d1; cbn; lia).
  set (e' := Z.min (fexp prec emax (d1 + 0 - (7 + 0))) (0 - 0)).
  assert (He' : (60 <= d1 /\ e' = 0) \/ (d1 < 60 /\ e' = d1 - 60)).
  { unfold e', fexp, emin, prec, emax. lia. }
  set (m' := match 0 - 0 - e' with
             | 0 => Zpos N
             | Zpos _ => Z.shiftl (Zpos N) (0 - 0 - e')
             | Zneg _ => 0
             end).
  assert (Hm' : m' = Zpos N * 2 ^ (- e') /\ 2 ^ 59 <= m' /\ 0 <= - e' <= 59).
  { unfold m'. destruct He' as [[Hd ->]|[Hd ->]].
    - cbn [Z.sub Z.opp Z.add]. split; [cbn; lia|]. split; [|lia].
      apply Z.le_trans with (2 ^ (d1 - 1)); [|exact HL].
      apply Z.pow_le_mono_r; lia.
    - destruct (0 - 0 - (d1 - 60)) as [|k|k] eqn:Ek; try lia.
      rewrite Z.shiftl_mul_pow2 by lia.
      replace (- (d1 - 60)) with (Zpos k) by lia.
      split; [reflexivity|]. split; [|lia].
      replace 59 with ((d1 - 1) + Zpos k) by lia.
      rewrite Z.pow_add_r by lia.
      apply Z.mul_le_mono_nonneg_r; [apply Z.pow_nonneg; lia|exact HL]. }
  destruct Hm' as [Em' [Hm' Hs]].
  pose proof (Z_div_mod m' 100 ltac:(lia)) as Hdm.
  destruct (Z.div_eucl m' 100) as [q r].
  exists (- e'), r. destruct Hdm as [Hdm Hr].
  repeat split; lia.
Qed.

(** Reading [N / 100] gives a positive float or overflows; the float read,
    scaled to integers, is at most one unit of its last place from
    [N / 100], and that unit is at most [2^-52] of [N / 100]. *)
Lemma round_decimal_core (N : positive) :
  match round_decimal false (Zpos N) (-2) with
  | S754_finite sg m e =>
      sg = false
      /\ exists s n,
          0 <= s /\ 0 <= n /\ 0 <= e + s
          /\ Z.abs (100 * (Zpos m * 2 ^ (e + s)) - Zpos N * 2 ^ s)
             <= 100 * 2 ^ n
          /\ 100 * 2 ^ n * 2 ^ 52 <= Zpos N * 2 ^ s
  | S754_infinity _ => True
  | _ => False
  end.
Proof.
  unfold round_decimal. change (Zpos (10 ^ 2)) with 100.
  pose proof (div_core_100 N) as Hc.
  destruct (SFdiv_core_binary prec emax (Zpos N) 0 100 0) as [[q e'] l].
  destruct Hc as [s [r [Hs [He' [Eq [Hr Hq]]]]]].
  unfold binary_round_aux.
  assert (Hq0 : 0 <= q) by (pose proof (Z.pow_pos_nonneg 2 52); lia).
  (* first shift *)
  pose proof (shr_fexp_div q e' l Hq0) as H1. cbv zeta in H1.
  destruct (shr_fexp prec emax q e' l) as [mrs1 e1].
  destruct H1 as [Em1 Ee1].
  destruct q as [|pq|pq]; try (pose proof (Z.pow_pos_nonneg 2 52); lia).
  pose proof (Zdigits2_lower pq) as HL. pose proof (Zdigits2_bound pq) as HU.
  set (dq := Zdigits2 (Zpos pq)) in *.
  assert (Hdq : 53 <= dq).
  { destruct (Z_lt_le_dec dq 53) as [Hlt|]; [|assumption]. exfalso.
    assert (2 ^ dq <= 2 ^ 52) by (apply Z.pow_le_mono_r; lia). lia. }
  assert (En1 : Z.max 0 (fexp prec emax (dq + e') - e') = dq - 53).
  { unfold fexp, emin, prec, emax. lia. }
  rewrite En1 in Em1, Ee1.
  set (n := dq - 53) in *.
  set (P := 2 ^ n) in *.
  assert (HP : 0 < P) by (apply Z.pow_pos_nonneg; lia).
  set (m1 := shr_m mrs1) in *.
  assert (Hdq2 : 2 ^ dq = 2 ^ 53 * P /\ 2 ^ (dq - 1) = 2 ^ 52 * P).
  { unfold P, n. rewrite <- !Z.pow_add_r by lia. split; f_equal; lia. }
  destruct Hdq2 as [Hdq2 Hdq1]. rewrite Hdq2 in HU. rewrite Hdq1 in HL.
  pose proof (Z.div_mod (Zpos pq) P ltac:(lia)) as Edq.
  pose proof (Z.mod_pos_bound (Zpos pq) P HP) as Hrq.
  rewrite <- Em1 in Edq. set (rq := Zpos pq mod P) in *.
  assert (Hm1 : 2 ^ 52 <= m1 < 2 ^ 53).
  { rewrite Em1. split.
    - apply Z.div_le_lower_bound; lia.
    - apply Z.div_lt_upper_bound; lia. }
  (* rounding *)
  pose proof (round_nearest_even_bounds m1 (loc_of_shr_record mrs1)) as H2.
  set (m2 := round_nearest_even m1 (loc_of_shr_record mrs1)) in *.
  assert (Hm2 : 0 <= m2) by (pose proof (Z.pow_pos_nonneg 2 52); lia).
  (* second shift *)
  pose proof (shr_fexp_div m2 e1 loc_Exact Hm2) as H3. cbv zeta in H3.
  destruct (shr_fexp prec emax m2 e1 loc_Exact) as [mrs2 e2].
  destruct H3 as [Em3 Ee2].
  assert (Hcase : (m2 < 2 ^ 53 /\ Zdigits2 m2 = 53)
                  \/ (m2 = 2 ^ 53 /\ Zdigits2 m2 = 54)).
  { destruct (Z_lt_le_dec m2 (2 ^ 53)) as [Hlt|Hge].
    - left. split; [exact Hlt|]. apply Zdigits2_eq; [lia|].
      change (53 - 1) with 52. lia.
    - right. assert (E : m2 = 2 ^ 53) by lia. split; [exact E|].
      rewrite E. reflexivity. }
  assert (Hfin : exists n2, 0 <= n2 <= 1 /\ shr_m mrs2 * 2 ^ n2 = m2
                            /\ e2 = e1 + n2).
  { destruct Hcase as [[Hlt Hd]|[E Hd]]; rewrite Hd in Em3, Ee2.
    - exists 0. replace (Z.max 0 (fexp prec emax (53 + e1) - e1)) with 0
        in Em3, Ee2 by (unfold fexp, emin, prec, emax; lia).
      rewrite Em3. cbn. rewrite Z.div_1_r. lia.
    - exists 1. replace (Z.max 0 (fexp prec emax (54 + e1) - e1)) with 1
        in Em3, Ee2 by (unfold fexp, emin, prec, emax; lia).
      rewrite Em3, E. split; [lia|]. split; [reflexivity|exact Ee2]. }
  destruct Hfin as [n2 [Hn2 [Em Ee]]].
  assert (Hm3 : 0 < shr_m mrs2).
  { assert (Hn2' : n2 = 0 \/ n2 = 1) by lia.
    pose proof (Z.pow_pos_nonneg 2 52).
    destruct Hn2' as [-> | ->]; cbn in Em; lia. }
  destruct (shr_m mrs2) as [|m|p3] eqn:E3; try lia.
  destruct (e2 <=? emax - prec); [|exact I].
  split; [reflexivity|].
  exists s, n. split; [lia|]. split; [unfold n; lia|].
  assert (Ees : e2 + s = n + n2) by lia.
  split; [lia|].
  rewrite Ees.
  assert (EA : Zpos m * 2 ^ (n + n2) = m2 * P).
  { rewrite Z.add_comm, Z.pow_add_r by lia. fold P. rewrite <- Em. ring. }
  rewrite EA, Eq. fold P.
  split.
  - assert (Hm2c : m2 = m1 \/ m2 = m1 + 1) by lia.
    destruct Hm2c as [-> | ->]; rewrite Edq; lia.
  - rewrite Edq.
    assert (2 ^ 52 * P <= P * m1) by nia. lia.
Qed.

Lemma to_Q_scaled (m : positive) (e s : Z) :
  0 <= s -> 0 <= e + s ->
  (to_Q (S754_finite false m e) == (Zpos m * 2 ^ (e + s)) # Z.to_pos (2 ^ s))%Q.
Proof.
  intros Hs Hes.
  assert (HP : 0 < 2 ^ s) by (apply Z.pow_pos_nonneg; lia).
  unfold to_Q, Qeq. destruct e as [|k|k]; cbn [Qnum Qden inject_Z];
    rewrite Z2Pos.id by exact HP.
  - cbn [Z.add]. change (2 ^ 0) with 1. ring.
  - rewrite Z.pow_add_r by lia. ring.
  - rewrite Pos2Z.inj_pow.
    replace s with ((Zneg k + s) + Zpos k) at 1 by lia.
    rewrite Z.pow_add_r by lia. ring.
Qed.

(** The float read from [N / 100], when finite, is within [2^-52] of it,
    relatively. *)
Lemma round_decimal_close (N : Z) :
  0 <= N -> is_finite (round_decimal false N (-2)) = true ->
  (Qabs (to_Q (round_decimal false N (-2)) - (N # 100))
   <= (N # 100) * (1 # 2 ^ 52))%Q.
Proof.
  intros HN Hf. destruct N as [|N|N]; [vm_compute; discriminate| |lia].
  pose proof (round_decimal_core N) as H.
  destruct (round_decimal false (Zpos N) (-2)) as [sg|sg| |sg m e];
    try contradiction; try discriminate.
  destruct H as [-> [s [n [Hs [Hn [Hes [H1 H2]]]]]]].
  rewrite (to_Q_scaled m e s Hs Hes).
  assert (HP : 0 < 2 ^ s) by (apply Z.pow_pos_nonneg; lia).
  set (A := Zpos m * 2 ^ (e + s)) in *.
  unfold Qle, Qabs, Qminus, Qplus, Qopp, Qmult; cbn [Qnum Qden].
  rewrite !Pos2Z.inj_mul, Z2Pos.id by exact HP.
  set (P := 2 ^ s) in *. set (T := 2 ^ n) in *.
  change (Zpos (2 ^ 52)) with (2 ^ 52).
  replace (A * 100 + - Zpos N * P) with (100 * A - Zpos N * P) by ring.
  set (X := Z.abs (100 * A - Zpos N * P)) in *.
  set (W := Zpos N * P) in *.
  replace (Zpos N * 1 * (P * 100)) with (W * 100) by (unfold W; ring).
  change (2 ^ 52) with 4503599627370496 in *. lia.
Qed.

(** *** Ten times a value, and its integer part *)

Lemma Zdigits2_ge (p : positive) (k : Z) :
  2 ^ (k - 1) <= Zpos p -> k <= Zdigits2 (Zpos p).
Proof.
  intros H. pose proof (Zdigits2_bound p) as HU.
  destruct (Z_lt_le_dec (Zdigits2 (Zpos p)) k) as [Hlt|]; [|assumption].
  exfalso.
  assert (2 ^ Zdigits2 (Zpos p) <= 2 ^ (k - 1)).
  { apply Z.pow_le_mono_r; [lia|]. lia. }
  lia.
Qed.

(** Rounding a mantissa of at least 53 bits, away from the subnormal range:
    the result is within one unit of the last place kept, and that unit is
    at most [2^-52] of the number rounded; it overflows only for a number
    of [2^1023] or more. *)
Lemma round_aux_core (q : positive) (e' : Z) (l : location) :
  2 ^ 52 <= Zpos q -> -1021 <= Zdigits2 (Zpos q) + e' ->
  match binary_round_aux prec emax false (Zpos q) e' l with
  | S754_finite sg m e =>
      sg = false
      /\ exists n,
          0 <= n /\ e' <= e
          /\ Z.abs (Zpos m * 2 ^ (e - e') - Zpos q) <= 2 ^ n
          /\ 2 ^ n * 2 ^ 52 <= Zpos q
  | S754_infinity _ => 1024 <= Zdigits2 (Zpos q) + e'
  | _ => False
  end.
Proof.
  intros Hq Hmag. unfold binary_round_aux.
  pose proof (shr_fexp_div (Zpos q) e' l ltac:(lia)) as H1. cbv zeta in H1.
  destruct (shr_fexp prec emax (Zpos q) e' l) as [mrs1 e1].
  destruct H1 as [Em1 Ee1].
  pose proof (Zdigits2_lower q) as HL. pose proof (Zdigits2_bound q) as HU.
  set (dq := Zdigits2 (Zpos q)) in *.
  assert (Hdq : 53 <= dq).
  { destruct (Z_lt_le_dec dq 53) as [Hlt|]; [|assumption]. exfalso.
    assert (2 ^ dq <= 2 ^ 52) by (apply Z.pow_le_mono_r; lia). lia. }
  assert (En1 : Z.max 0 (fexp prec emax (dq + e') - e') = dq - 53).
  { unfold fexp, emin, prec, emax. lia. }
  rewrite En1 in Em1, Ee1.
  set (n := dq - 53) in *.
  set (P := 2 ^ n) in *.
  assert (HP : 0 < P) by (apply Z.pow_pos_nonneg; lia).
  set (m1 := shr_m mrs1) in *.
  assert (Hdq2 : 2 ^ dq = 2 ^ 53 * P /\ 2 ^ (dq - 1) = 2 ^ 52 * P).
  { unfold P, n. rewrite <- !Z.pow_add_r by lia. split; f_equal; lia. }
  destruct Hdq2 as [Hdq2 Hdq1]. rewrite Hdq2 in HU. rewrite Hdq1 in HL.
  pose proof (Z.div_mod (Zpos q) P ltac:(lia)) as Edq.
  pose proof (Z.mod_pos_bound (Zpos q) P HP) as Hrq.
  rewrite <- Em1 in Edq. set (rq := Zpos q mod P) in *.
  assert (Hm1 : 2 ^ 52 <= m1 < 2 ^ 53).
  { rewrite Em1. split.
    - apply Z.div_le_lower_bound; lia.
    - apply Z.div_lt_upper_bound; lia. }
  pose proof (round_nearest_even_bounds m1 (loc_of_shr_record mrs1)) as H2.
  set (m2 := round_nearest_even m1 (loc_of_shr_record mrs1)) in *.
  assert (Hm2 : 0 <= m2) by (pose proof (Z.pow_pos_nonneg 2 52); lia).
  pose proof (shr_fexp_div m2 e1 loc_Exact Hm2) as H3. cbv zeta in H3.
  destruct (shr_fexp prec emax m2 e1 loc_Exact) as [mrs2 e2].
  destruct H3 as [Em3 Ee2].
  assert (Hcase : (m2 < 2 ^ 53 /\ Zdigits2 m2 = 53)
                  \/ (m2 = 2 ^ 53 /\ Zdigits2 m2 = 54)).
  { destruct (Z_lt_le_dec m2 (2 ^ 53)) as [Hlt|Hge].
    - left. split; [exact Hlt|]. apply Zdigits2_eq; [lia|].
      change (53 - 1) with 52. lia.
    - right. assert (E : m2 = 2 ^ 53) by lia. split; [exact E|].
      rewrite E. reflexivity. }
  assert (Hfin : exists n2, 0 <= n2 <= 1 /\ shr_m mrs2 * 2 ^ n2 = m2
                            /\ e2 = e1 + n2).
  { destruct Hcase as [[Hlt Hd]|[E Hd]]; rewrite Hd in Em3, Ee2.
    - exists 0. replace (Z.max 0 (fexp prec emax (53 + e1) - e1)) with 0
        in Em3, Ee2 by (unfold fexp, emin, prec, emax; lia).
      rewrite Em3. cbn. rewrite Z.div_1_r. lia.
    - exists 1. replace (Z.max 0 (fexp prec emax (54 + e1) - e1)) with 1
        in Em3, Ee2 by (unfold fexp, emin, prec, emax; lia).
      rewrite Em3, E. split; [lia|]. split; [reflexivity|exact Ee2]. }
  destruct Hfin as [n2 [Hn2 [Em Ee]]].
  assert (Hm3 : 0 < shr_m mrs2).
  { assert (Hn2' : n2 = 0 \/ n2 = 1) by lia.
    pose proof (Z.pow_pos_nonneg 2 52).
    destruct Hn2' as [-> | ->]; cbn in Em; lia. }
  destruct (shr_m mrs2) as [|m|p3] eqn:E3; try lia.
  destruct (e2 <=? emax - prec) eqn:Hov.
  - split; [reflexivity|].
    exists n. split; [unfold n; lia|]. split; [lia|].
    replace (e2 - e') with (n + n2) by lia.
    assert (EA : Zpos m * 2 ^ (n + n2) = m2 * P).
    { rewrite Z.add_comm, Z.pow_add_r by lia. fold P. rewrite <- Em. ring. }
    rewrite EA. split.
    + assert (Hm2c : m2 = m1 \/ m2 = m1 + 1) by lia.
      destruct Hm2c as [-> | ->]; rewrite Edq; lia.
    + rewrite Edq. assert (2 ^ 52 * P <= P * m1) by nia. lia.
  - apply Z.leb_gt in Hov. unfold emax, prec in Hov. lia.
Qed.

(** Two numbers with a common exponent that differ by little differ by
    little as rationals. *)
Lemma to_Q_close (m' : positive) (e2 : Z) (M : positive) (E T : Z) :
  E <= e2 ->
  Z.abs (Zpos m' * 2 ^ (e2 - E) - Zpos M) <= T ->
  T * 2 ^ 52 <= Zpos M ->
  (Qabs (to_Q (S754_finite false m' e2) - to_Q (S754_finite false M E))
   <= to_Q (S754_finite false M E) * (1 # 2 ^ 52))%Q.
Proof.
  intros He H1 H2.
  set (s := Z.max 0 (- E)).
  assert (Hs : 0 <= s) by lia.
  rewrite (to_Q_scaled m' e2 s Hs ltac:(lia)).
  rewrite (to_Q_scaled M E s Hs ltac:(lia)).
  assert (HP : 0 < 2 ^ s) by (apply Z.pow_pos_nonneg; lia).
  replace (e2 + s) with ((e2 - E) + (E + s)) by lia.
  rewrite Z.pow_add_r by lia.
  set (A := Zpos m' * 2 ^ (e2 - E)) in *.
  set (W := 2 ^ (E + s)).
  assert (HW : 0 < W) by (apply Z.pow_pos_nonneg; lia).
  unfold Qle, Qabs, Qminus, Qplus, Qopp, Qmult; cbn [Qnum Qden].
  rewrite !Pos2Z.inj_mul, Z2Pos.id by exact HP.
  set (P := 2 ^ s) in *.
  change (Zpos (2 ^ 52)) with (2 ^ 52).
  replace (Zpos m' * (2 ^ (e2 - E) * W) * P + - (Zpos M * W) * P)
    with ((A - Zpos M) * (W * P)) by (unfold A; ring).
  rewrite Z.abs_mul. rewrite (Z.abs_eq (W * P)) by nia.
  set (X := Z.abs (A - Zpos M)) in *.
  change (2 ^ 52) with 4503599627370496 in *.
  assert (0 <= X) by (unfold X; lia).
  assert (HWP : 0 < W * P) by nia.
  assert (X * 4503599627370496 <= Zpos M) by lia.
  nia.
Qed.

Lemma of_int_10 : of_int 10 = S754_finite false 5629499534213120 (-49).
Proof. reflexivity. Qed.

Lemma to_Q_mul_ten (m : positive) (e : Z) :
  (to_Q (S754_finite false (m * 5629499534213120) (e + -49))
   == 10 * to_Q (S754_finite false m e))%Q.
Proof.
  set (s := Z.max 0 (- e)).
  assert (Hs : 0 <= s) by lia.
  rewrite (to_Q_scaled m e s Hs ltac:(lia)).
  rewrite (to_Q_scaled (m * 5629499534213120) (e + -49) (s + 49)
             ltac:(lia) ltac:(lia)).
  replace (e + -49 + (s + 49)) with (e + s) by lia.
  assert (HP : 0 < 2 ^ s) by (apply Z.pow_pos_nonneg; lia).
  assert (HP' : 0 < 2 ^ (s + 49)) by (apply Z.pow_pos_nonneg; lia).
  unfold Qeq, Qmult; cbn [Qnum Qden].
  rewrite Pos.mul_1_l, !Z2Pos.id by assumption.
  rewrite (Z.pow_add_r 2 s 49) by lia. rewrite Pos2Z.inj_mul.
  change (2 ^ 49) with 562949953421312.
  change (Zpos 5629499534213120) with 5629499534213120. ring.
Qed.

(** The size of a float, read off its rational value. *)
Lemma mag_lower (m : positive) (e : Z) :
  (1 # 256 <= to_Q (S754_finite false m e))%Q ->
  -7 <= Zdigits2 (Zpos m) + e.
Proof.
  intros H. pose proof (Zdigits2_bound m) as HU.
  set (d := Zdigits2 (Zpos m)) in *.
  assert (Hd : 1 <= d) by (unfold d; cbn; lia).
  destruct e as [|k|k]; try lia.
  unfold to_Q, Qle in H. cbn [Qnum Qden] in H.
  rewrite Pos2Z.inj_pow in H.
  destruct (Z_lt_le_dec (d + Zneg k) (-7)) as [Hlt|]; [|assumption].
  exfalso.
  assert (2 ^ (d + 8) <= 2 ^ Zpos k) by (apply Z.pow_le_mono_r; lia).
  rewrite Z.pow_add_r in H0 by lia. change (2 ^ 8) with 256 in H0. lia.
Qed.

Lemma mag_upper (m : positive) (e : Z) :
  (to_Q (S754_finite false m e) <= inject_Z (2 ^ 40))%Q ->
  Zdigits2 (Zpos m) + e <= 41.
Proof.
  intros H. pose proof (Zdigits2_lower m) as HL.
  set (d := Zdigits2 (Zpos m)) in *.
  assert (Hd : 1 <= d) by (unfold d; cbn; lia).
  destruct (Z_lt_le_dec 41 (d + e)) as [Hgt|]; [|lia]. exfalso.
  destruct e as [|k|k].
  - unfold to_Q, Qle, inject_Z in H. cbn [Qnum Qden] in H.
    assert (2 ^ 41 <= 2 ^ (d - 1)) by (apply Z.pow_le_mono_r; lia).
    change (2 ^ 0) with 1 in H. change (2 ^ 41) with 2199023255552 in *.
    change (2 ^ 40) with 1099511627776 in *. lia.
  - unfold to_Q, Qle, inject_Z in H. cbn [Qnum Qden] in H.
    assert (2 ^ 41 <= 2 ^ (d - 1 + Zpos k)) by (apply Z.pow_le_mono_r; lia).
    rewrite Z.pow_add_r in H0 by lia.
    pose proof (Z.pow_pos_nonneg 2 (Zpos k)).
    change (2 ^ 41) with 2199023255552 in *.
    change (2 ^ 40) with 1099511627776 in *. nia.
  - unfold to_Q, Qle, inject_Z in H. cbn [Qnum Qden] in H.
    rewrite Pos2Z.inj_pow in H.
    assert (2 ^ (41 + Zpos k) <= 2 ^ (d - 1)) by (apply Z.pow_le_mono_r; lia).
    rewrite Z.pow_add_r in H0 by lia.
    pose proof (Z.pow_pos_nonneg 2 (Zpos k)).
    change (2 ^ 41) with 2199023255552 in *.
    change (2 ^ 40) with 1099511627776 in *. nia.
Qed.

(** Ten times a float of ordinary size: correctly rounded, so within
    [2^-52] of the exact product, relatively. *)
Lemma mul_ten_close (m : positive) (e : Z) :
  (1 # 256 <= to_Q (S754_finite false m e))%Q ->
  match mul (S754_finite false m e) (of_int 10) with
  | S754_finite sg m' e' =>
      sg = false
      /\ (Qabs (to_Q (S754_finite false m' e')
                - 10 * to_Q (S754_finite false m e))
          <= 10 * to_Q (S754_finite false m e) * (1 # 2 ^ 52))%Q
  | S754_infinity _ => 1020 <= Zdigits2 (Zpos m) + e
  | _ => False
  end.
Proof.
  intros Hlow. pose proof (mag_lower m e Hlow) as Hmag.
  rewrite of_int_10. unfold mul, SFmul. cbn [xorb].
  pose proof (Zdigits2_lower m) as HL. pose proof (Zdigits2_bound m) as HU.
  set (d := Zdigits2 (Zpos m)) in *.
  assert (Hd : 1 <= d) by (unfold d; cbn; lia).
  set (M := (m * 5629499534213120)%positive).
  assert (EM : Zpos M = Zpos m * (5 * 2 ^ 50)) by (unfold M; lia).
  assert (HM : 2 ^ 52 <= Zpos M).
  { rewrite EM. change (2 ^ 52) with (1 * (4 * 2 ^ 50)).
    change (2 ^ 50) with 1125899906842624. lia. }
  assert (HdM : d + 52 <= Zdigits2 (Zpos M) <= d + 53).
  { split.
    - apply Zdigits2_ge. rewrite EM.
      replace (d + 52 - 1) with ((d - 1) + 52) by lia.
      rewrite Z.pow_add_r by lia.
      change (2 ^ 52) with 4503599627370496.
      change (2 ^ 50) with 1125899906842624. nia.
    - apply Zdigits2_le; [|lia]. rewrite EM, Z.pow_add_r by lia.
      change (2 ^ 53) with 9007199254740992.
      change (2 ^ 50) with 1125899906842624. nia. }
  pose proof (round_aux_core M (e + -49) loc_Exact HM ltac:(lia)) as H.
  destruct (binary_round_aux prec emax false (Zpos M) (e + -49) loc_Exact)
    as [sg|sg| |sg m' e']; try contradiction.
  - lia.
  - destruct H as [-> [n [Hn [He [H1 H2]]]]]. split; [reflexivity|].
    rewrite <- (to_Q_mul_ten m e). fold M.
    exact (to_Q_close m' e' M (e + -49) (2 ^ n) He H1 H2).
Qed.

(** [int] of a positive float is the integer just below it. *)
Lemma trunc_floor (m : positive) (e : Z) :
  (inject_Z (trunc false m e) <= to_Q (S754_finite false m e)
   /\ to_Q (S754_finite false m e) < inject_Z (trunc false m e) + 1)%Q.
Proof.
  unfold trunc, to_Q. destruct e as [|k|k].
  - rewrite Z.shiftl_mul_pow2 by lia.
    set (a := inject_Z (Zpos m * 2 ^ 0)). clearbody a. split; lra.
  - rewrite Z.shiftl_mul_pow2 by lia.
    set (a := inject_Z (Zpos m * 2 ^ Zpos k)). clearbody a. split; lra.
  - rewrite Z.shiftr_div_pow2 by lia.
    assert (HP : 0 < 2 ^ Zpos k) by (apply Z.pow_pos_nonneg; lia).
    pose proof (Z.div_mod (Zpos m) (2 ^ Zpos k) ltac:(lia)) as E.
    pose proof (Z.mod_pos_bound (Zpos m) (2 ^ Zpos k) HP) as Hr.
    unfold Qle, Qlt, Qplus, inject_Z; cbn [Qnum Qden].
    rewrite Pos2Z.inj_pow. split; nia.
Qed.

(** The tick a value of ordinary size asks for, within rounding of ten
    times the value. *)
Lemma tick_bounds (m : positive) (e n : Z) :
  (1 # 256 <= to_Q (S754_finite false m e))%Q ->
  value_to_tick (S754_finite false m e) = Val n ->
  (10 * to_Q (S754_finite false m e) * (1 - (1 # 2 ^ 52)) - 1 < inject_Z n
   /\ inject_Z n <= 10 * to_Q (S754_finite false m e) * (1 + (1 # 2 ^ 52)))%Q.
Proof.
  intros Hlow Ht. unfold value_to_tick in Ht.
  change SLIDER_SCALE_FACTOR with 10 in Ht.
  pose proof (mul_ten_close m e Hlow) as H.
  destruct (mul (S754_finite false m e) (of_int 10)) as [sg|sg| |sg m' e'];
    try contradiction; try discriminate.
  destruct H as [-> H]. cbn [to_int] in Ht.
  assert (En : n = trunc false m' e') by congruence. subst n. clear Ht.
  destruct (trunc_floor m' e') as [F1 F2].
  apply Qabs_Qle_condition in H. destruct H as [H1 H2].
  set (Y := to_Q (S754_finite false m e)) in *.
  set (R := to_Q (S754_finite false m' e')) in *.
  set (t := inject_Z (trunc false m' e')) in *.
  clearbody Y R t. split; lra.
Qed.

Lemma tick_exists (m : positive) (e : Z) :
  (1 # 256 <= to_Q (S754_finite false m e))%Q ->
  (to_Q (S754_finite false m e) <= inject_Z (2 ^ 40))%Q ->
  exists n, value_to_tick (S754_finite false m e) = Val n.
Proof.
  intros Hlow Hup. unfold value_to_tick.
  change SLIDER_SCALE_FACTOR with 10.
  pose proof (mul_ten_close m e Hlow) as H.
  pose proof (mag_upper m e Hup) as Hm.
  destruct (mul (S754_finite false m e) (of_int 10)) as [sg|sg| |sg m' e'];
    try contradiction; [lia|].
  cbn [to_int]. eauto.
Qed.

Lemma identical_eq (a b : float) : identical a b = true -> a = b.
Proof.
  destruct a as [s|s| |s m e], b as [t|t| |t n g]; cbn; try discriminate;
    try reflexivity.
  - intros H. apply Bool.eqb_prop in H. now subst.
  - intros H. apply Bool.eqb_prop in H. now subst.
  - rewrite !andb_true_iff. intros [[H1 H2] H3].
    apply Bool.eqb_prop in H1. apply Pos.eqb_eq in H2. apply Z.eqb_eq in H3.
    now subst.
Qed.

Lemma Qlt_inject_le (a b : Z) : (inject_Z a < inject_Z b + 1)%Q -> a <= b.
Proof. unfold Qlt, Qplus, inject_Z. cbn [Qnum Qden]. lia. Qed.

Lemma Qle_inject (a b : Z) : a <= b -> (inject_Z a <= inject_Z b)%Q.
Proof. unfold Qle, inject_Z. cbn [Qnum Qden]. lia. Qed.

Lemma hundredths (N : Z) : (100 * (N # 100) == inject_Z N)%Q.
Proof. unfold Qeq, Qmult, inject_Z. cbn [Qnum Qden]. lia. Qed.

Lemma inject_tens (N : Z) :
  (inject_Z N == 10 * inject_Z (N / 10) + inject_Z (N mod 10))%Q.
Proof.
  rewrite (Z.div_mod N 10) at 1 by lia.
  rewrite inject_Z_plus, inject_Z_mult. reflexivity.
Qed.

End RoundingFacts.

(** ** Printing a number and reading it back *)

Section TextFacts.

Lemma digit_val_char (d : Z) :
  0 <= d < 10 -> digit_val (digit_char d) = Some d.
Proof.
  intros Hd.
  assert (H : d = 0 \/ d = 1 \/ d = 2 \/ d = 3 \/ d = 4 \/ d = 5
              \/ d = 6 \/ d = 7 \/ d = 8 \/ d = 9) by lia.
  repeat (destruct H as [->|H]; [reflexivity|]). now subst.
Qed.

Lemma digit_char_digit (d : Z) : 0 <= d < 10 -> digit (digit_char d).
Proof.
  intros Hd. unfold digit, is_digit. now rewrite digit_val_char.
Qed.

(** A digit is neither white space, nor a sign, nor an underscore. *)
Lemma digit_plain (c : ascii) :
  digit c ->
  is_space c = false /\ Ascii.eqb c "_" = false
  /\ (forall r, parse_sign (c :: r) = (false, c :: r)).
Proof.
  unfold digit.
  destruct c as [[|] [|] [|] [|] [|] [|] [|] [|]]; vm_compute;
    intros H; try discriminate H; repeat split.
Qed.

Lemma digits_value_snoc (l : list ascii) (c : ascii) :
  digits_value (l ++ [c])
  = 10 * digits_value l + match digit_val c with Some d => d | None => 0 end.
Proof. unfold digits_value. now rewrite fold_left_app. Qed.

Lemma fixed_digits_length (w : nat) :
  forall n, List.length (fixed_digits w n) = w.
Proof.
  induction w as [|w IH]; intros n; [reflexivity|].
  cbn [fixed_digits]. rewrite last_length. now rewrite IH.
Qed.

Lemma fixed_digits_digit (w : nat) :
  forall n, Forall digit (fixed_digits w n).
Proof.
  induction w as [|w IH]; intros n; [constructor|].
  cbn [fixed_digits]. apply Forall_app. split; [apply IH|].
  constructor; [|constructor].
  apply digit_char_digit. apply Z.mod_pos_bound. lia.
Qed.

(** [w] digits of [n] read back as [n] modulo [10^w]. *)
Lemma fixed_digits_value (w : nat) :
  forall n, 0 <= n ->
            digits_value (fixed_digits w n) = n mod 10 ^ Z.of_nat w.
Proof.
  induction w as [|w IH]; intros n Hn.
  - cbn. now rewrite Z.mod_1_r.
  - cbn [fixed_digits]. rewrite digits_value_snoc.
    rewrite digit_val_char by (apply Z.mod_pos_bound; lia).
    rewrite IH by (apply Z.div_pos; lia).
    rewrite Nat2Z.inj_succ, Z.pow_succ_r by lia.
    rewrite (Z.rem_mul_r n 10 (10 ^ Z.of_nat w)); [lia|lia|].
    apply Z.pow_pos_nonneg; lia.
Qed.

Lemma strip_zeros_value (ds : list ascii) :
  digits_value (strip_zeros ds) = digits_value ds.
Proof.
  induction ds as [|c [|c' r] IH]; try reflexivity.
  change (strip_zeros (c :: c' :: r))
    with (if Ascii.eqb c "0" then strip_zeros (c' :: r) else c :: c' :: r).
  destruct (Ascii.eqb c "0") eqn:Hc; [|reflexivity].
  apply Ascii.eqb_eq in Hc. subst c. rewrite IH. reflexivity.
Qed.

Lemma strip_zeros_digit (ds : list ascii) :
  Forall digit ds -> Forall digit (strip_zeros ds).
Proof.
  induction ds as [|c [|c' r] IH]; intros H; try exact H.
  change (strip_zeros (c :: c' :: r))
    with (if Ascii.eqb c "0" then strip_zeros (c' :: r) else c :: c' :: r).
  destruct (Ascii.eqb c "0"); [|exact H].
  apply IH. now inversion H.
Qed.

Lemma strip_zeros_nonempty (ds : list ascii) :
  ds <> [] -> strip_zeros ds <> [].
Proof.
  induction ds as [|c [|c' r] IH]; intros H; try exact H.
  change (strip_zeros (c :: c' :: r))
    with (if Ascii.eqb c "0" then strip_zeros (c' :: r) else c :: c' :: r).
  destruct (Ascii.eqb c "0"); [apply IH|]; discriminate.
Qed.

Lemma int_digits_value (n : Z) : 0 <= n -> digits_value (int_digits n) = n.
Proof.
  intros Hn. unfold int_digits.
  rewrite strip_zeros_value, fixed_digits_value by exact Hn.
  apply Z.mod_small. split; [exact Hn|].
  rewrite Nat2Z.inj_succ, Z2Nat.id by apply Z.log2_nonneg.
  destruct (Z.eq_dec n 0) as [->|Hz]; [reflexivity|].
  apply Z.lt_le_trans with (2 ^ Z.succ (Z.log2 n)).
  - apply Z.log2_spec. lia.
  - apply Z.pow_le_mono_l. pose proof (Z.log2_nonneg n). lia.
Qed.

Lemma int_digits_digit (n : Z) : Forall digit (int_digits n).
Proof. apply strip_zeros_digit, fixed_digits_digit. Qed.

Lemma int_digits_nonempty (n : Z) : int_digits n <> [].
Proof.
  apply strip_zeros_nonempty. cbn [fixed_digits].
  intros H. apply (f_equal (@List.length ascii)) in H.
  rewrite last_length in H. discriminate.
Qed.

(** A run of digits followed by something that is not a digit is split
    exactly there. *)
Lemma span_digits_app (ds rest : list ascii) :
  Forall digit ds ->
  match rest with [] => True | c :: _ => is_digit c = false end ->
  span_digits (ds ++ rest) = (ds, rest).
Proof.
  intros Hd Hr. induction Hd as [|c ds Hc _ IH].
  - destruct rest as [|c r]; [reflexivity|]. cbn. now rewrite Hr.
  - cbn. unfold digit in Hc. now rewrite Hc, IH.
Qed.

Lemma drop_underscores_none (l : list ascii) :
  forall prev,
    Ascii.eqb prev "_" = false ->
    Forall (fun c => Ascii.eqb c "_" = false) l ->
    drop_underscores prev l = Some l.
Proof.
  induction l as [|c l IH]; intros prev Hp Hl.
  - cbn. now rewrite Hp.
  - inversion Hl as [|? ? Hc Hl']; subst. cbn. rewrite Hc, Hp. cbn.
    now rewrite IH.
Qed.

Lemma lstrip_no_space (c : ascii) (r : list ascii) :
  is_space c = false -> lstrip (c :: r) = c :: r.
Proof. intros H. cbn. now rewrite H. Qed.

(** Pure ASCII text is decoded byte by byte and read as it is. *)
Lemma utf8_decode_ascii (l : list ascii) :
  Forall (fun c => (byte c <? 128) = true) l -> utf8_decode l = map byte l.
Proof.
  induction 1 as [|c l Hc _ IH]; [reflexivity|].
  cbn [utf8_decode map]. now rewrite Hc, IH.
Qed.

Lemma transform_ascii_id (l : list ascii) :
  Forall (fun c => (byte c <? 128) = true) l ->
  transform_decimal_and_space_to_ascii l = l.
Proof.
  intros H. unfold transform_decimal_and_space_to_ascii. cbv zeta.
  rewrite (utf8_decode_ascii l H).
  replace (forallb (fun cp => cp <? 128) (map byte l)) with true;
    [reflexivity|].
  symmetry. apply forallb_forall. intros z Hz.
  apply in_map_iff in Hz. destruct Hz as [c [<- Hc]].
  rewrite Forall_forall in H. now apply H.
Qed.

Lemma digit_ascii (c : ascii) : digit c -> (byte c <? 128) = true.
Proof.
  unfold digit.
  destruct c as [[|] [|] [|] [|] [|] [|] [|] [|]]; vm_compute;
    intros H; try discriminate H; reflexivity.
Qed.

Lemma fixed_point_ascii (p : nat) (n : Z) :
  Forall (fun c => (byte c <? 128) = true) (fixed_point p n).
Proof.
  unfold fixed_point. apply Forall_app. split.
  - eapply Forall_impl; [|apply int_digits_digit].
    intros c Hc. now apply digit_ascii.
  - destruct p as [|p]; [constructor|].
    constructor; [reflexivity|].
    eapply Forall_impl; [|apply fixed_digits_digit].
    intros c Hc. now apply digit_ascii.
Qed.

(** [n / 10^p] and [n mod 10^p], printed around a point. *)
Lemma fixed_point_S (p : nat) (n : Z) :
  fixed_point (S p) n
  = int_digits (n / 10 ^ Z.of_nat (S p))
    ++ "."%char :: fixed_digits (S p) (n mod 10 ^ Z.of_nat (S p)).
Proof. reflexivity. Qed.

(** The text of a fixed-point number with at least one decimal reads back
    as the same number: mantissa [n], exponent [-p]. *)
Lemma parse_fixed_point (p : nat) (n : Z) :
  0 <= n ->
  let l := fixed_point (S p) n in
  strip l = l
  /\ drop_underscores "000"%char l = Some l
  /\ parse_sign l = (false, l)
  /\ parse_decimal l = Some (n, - Z.of_nat (S p)).
Proof.
  intros Hn l. unfold l. rewrite fixed_point_S.
  set (P := 10 ^ Z.of_nat (S p)).
  assert (HP : 0 < P) by (apply Z.pow_pos_nonneg; lia).
  set (ip := int_digits (n / P)).
  set (fp := fixed_digits (S p) (n mod P)).
  assert (Hip : Forall digit ip) by apply int_digits_digit.
  assert (Hfp : Forall digit fp) by apply fixed_digits_digit.
  assert (Hne : ip <> []) by apply int_digits_nonempty.
  destruct ip as [|c ip'] eqn:Eip; [congruence|]. clear Hne.
  assert (Hc : digit c) by now inversion Hip.
  destruct (digit_plain c Hc) as [Hsp [Hus Hsg]].
  (* the last character is a digit too *)
  assert (Hlast : exists l0 c0, (c :: ip') ++ "."%char :: fp = l0 ++ [c0]
                                /\ digit c0).
  { unfold fp. cbn [fixed_digits].
    exists ((c :: ip') ++ "."%char :: fixed_digits p (n mod P / 10)),
           (digit_char ((n mod P) mod 10)).
    split.
    - now rewrite <- app_assoc.
    - apply digit_char_digit. apply Z.mod_pos_bound. lia. }
  destruct Hlast as [l0 [c0 [El Hc0]]].
  destruct (digit_plain c0 Hc0) as [Hsp0 _].
  repeat split.
  - unfold strip. change ((c :: ip') ++ "."%char :: fp)
      with (c :: (ip' ++ "."%char :: fp)).
    rewrite (lstrip_no_space c _ Hsp).
    change (c :: (ip' ++ "."%char :: fp)) with ((c :: ip') ++ "."%char :: fp).
    rewrite El, rev_app_distr. cbn [rev app].
    rewrite (lstrip_no_space c0 _ Hsp0).
    change (c0 :: rev l0) with ([c0] ++ rev l0).
    now rewrite rev_app_distr, rev_involutive.
  - apply drop_underscores_none; [reflexivity|].
    apply Forall_app. split.
    + eapply Forall_impl; [|exact Hip]. intros a Ha. now apply digit_plain.
    + constructor; [reflexivity|].
      eapply Forall_impl; [|exact Hfp]. intros a Ha. now apply digit_plain.
  - apply Hsg.
  - unfold parse_decimal.
    rewrite (span_digits_app (c :: ip') ("."%char :: fp) Hip) by reflexivity.
    rewrite <- (app_nil_r fp) at 1.
    rewrite (span_digits_app fp [] Hfp) by exact I.
    assert (Hlen : List.length fp = S p) by apply fixed_digits_length.
    rewrite Hlen. fold P.
    assert (Hiv : digits_value (c :: ip') = n / P).
    { rewrite <- Eip. apply int_digits_value. apply Z.div_pos; lia. }
    assert (Hfv : digits_value fp = n mod P).
    { unfold fp. rewrite fixed_digits_value by (apply Z.mod_pos_bound; lia).
      fold P. apply Z.mod_small. apply Z.mod_pos_bound. lia. }
    rewrite Hiv, Hfv.
    replace (n / P * P + n mod P) with n
      by (rewrite (Z.div_mod n P) at 1; lia).
    reflexivity.
Qed.

(** *** Rounding to a fixed number of decimals *)

Lemma div_half_even_spec (a b : Z) :
  0 <= a -> 0 < b ->
  0 <= div_half_even a b /\ 2 * Z.abs (div_half_even a b * b - a) <= b.
Proof.
  intros Ha Hb. unfold div_half_even. cbv zeta.
  pose proof (Z.div_mod a b ltac:(lia)) as E.
  pose proof (Z.mod_pos_bound a b Hb) as Hr.
  pose proof (Z.div_pos a b Ha Hb) as Hq.
  set (q := a / b) in *. set (r := a mod b) in *. clearbody q r.
  assert (E1 : q * b - a = - r) by lia.
  assert (E2 : (q + 1) * b - a = b - r) by lia.
  clear E.
  destruct (2 * r ?= b) eqn:C.
  - apply Z.compare_eq in C.
    destruct (Z.even q); cbv iota; rewrite ?E1, ?E2; lia.
  - rewrite Z.compare_lt_iff in C. rewrite E1. lia.
  - rewrite Z.compare_gt_iff in C. rewrite E2. lia.
Qed.

Lemma scaled_round_nonneg (p : nat) (m : positive) (e : Z) :
  0 <= scaled_round p m e.
Proof.
  unfold scaled_round. destruct e as [|k|k].
  - pose proof (Z.pow_nonneg 10 (Z.of_nat p)). nia.
  - pose proof (Z.pow_nonneg 10 (Z.of_nat p)).
    pose proof (Z.pow_nonneg 2 (Zpos k)). nia.
  - apply div_half_even_spec; [|lia].
    pose proof (Z.pow_nonneg 10 (Z.of_nat p)). nia.
Qed.

(** The two-decimal rendering of a positive float is within half a unit of
    the second decimal of the float's exact value. *)
Lemma scaled_round_close (m : positive) (e : Z) :
  (Qabs ((scaled_round 2 m e # 100) - to_Q (S754_finite false m e))
   <= 5 # 1000)%Q.
Proof.
  unfold scaled_round, to_Q. change (10 ^ Z.of_nat 2) with 100.
  destruct e as [|k|k].
  - unfold Qle, Qabs, Qminus, Qplus, Qopp, inject_Z; cbn [Qnum Qden].
    replace (Zpos m * 2 ^ 0 * 100 * 1 + - (Zpos m * 2 ^ 0) * 100) with 0
      by ring.
    cbn. lia.
  - unfold Qle, Qabs, Qminus, Qplus, Qopp, inject_Z; cbn [Qnum Qden].
    replace (Zpos m * 2 ^ Zpos k * 100 * 1 + - (Zpos m * 2 ^ Zpos k) * 100)
      with 0 by ring.
    cbn. lia.
  - set (N := div_half_even (Zpos m * 100) (Zpos (2 ^ k))).
    destruct (div_half_even_spec (Zpos m * 100) (Zpos (2 ^ k))) as [_ H];
      [lia|lia|]. fold N in H.
    unfold Qle, Qabs, Qminus, Qplus, Qopp; cbn [Qnum Qden].
    rewrite Pos2Z.inj_mul.
    replace (N * Zpos (2 ^ k) + - Zpos m * 100)
      with (N * Zpos (2 ^ k) - Zpos m * 100) by ring.
    lia.
Qed.

(** [float] of a formatted positive float reads the rounded decimal. *)
Lemma py_float_format (p : nat) (m : positive) (e : Z) :
  let txt := format_f (S p) (S754_finite false m e) in
  let N := scaled_round (S p) m e in
  parse_decimal (list_ascii_of_string txt) = Some (N, - Z.of_nat (S p))
  /\ py_float txt = Val (round_decimal false N (- Z.of_nat (S p))).
Proof.
  intros txt N.
  assert (Et : list_ascii_of_string txt = fixed_point (S p) N).
  { unfold txt, format_f. cbn [String.append].
    apply list_ascii_of_string_of_list_ascii. }
  destruct (parse_fixed_point p N (scaled_round_nonneg (S p) m e))
    as [H1 [H2 [H3 H4]]].
  split; [now rewrite Et|].
  unfold py_float. cbv zeta. rewrite Et.
  rewrite transform_ascii_id by apply fixed_point_ascii.
  rewrite H2. unfold float_from_string_inner. now rewrite H1, H3, H4.
Qed.

End TextFacts.

(** ** The ramp of [np.linspace] *)

Section LinspaceFacts.

Lemma removelast_length {A : Type} (l : list A) :
  List.length (removelast l) = pred (List.length l).
Proof.
  induction l as [|a [|b l] IH]; try reflexivity.
  change (S (List.length (removelast (b :: l))) = S (List.length l)).
  now rewrite IH.
Qed.

Lemma nth_removelast {A : Type} (l : list A) (d : A) :
  forall i, (S i < List.length l)%nat -> nth i (removelast l) d = nth i l d.
Proof.
  induction l as [|a [|b l] IH]; intros i Hi; cbn in Hi; try lia.
  destruct i as [|i]; [reflexivity|].
  change (nth i (removelast (b :: l)) d = nth i (b :: l) d).
  apply IH. cbn. lia.
Qed.

Lemma nth_map_lt {A B : Type} (g : A -> B) (l : list A) (d : B) (d' : A) :
  forall i, (i < List.length l)%nat -> nth i (map g l) d = g (nth i l d').
Proof.
  induction l as [|a l IH]; intros i Hi; cbn in Hi; [lia|].
  destruct i as [|i]; [reflexivity|]. apply IH. lia.
Qed.

Lemma arange_length (n : nat) : List.length (arange n) = n.
Proof. unfold arange. now rewrite length_map, length_seq. Qed.

Lemma nth_arange (n i : nat) :
  (i < n)%nat -> nth i (arange n) zero = of_int (Z.of_nat i).
Proof.
  intros Hi. unfold arange.
  rewrite (nth_map_lt _ _ _ 0%nat) by now rewrite length_seq.
  now rewrite seq_nth.
Qed.

Lemma set_last_length (y : list float) (stop : float) :
  y <> [] -> List.length (set_last y stop) = List.length y.
Proof.
  intros Hy. unfold set_last. rewrite last_length, removelast_length.
  destruct y; [congruence|reflexivity].
Qed.

Lemma linspace_length (start stop : float) (n : nat) :
  List.length (linspace start stop n) = n.
Proof.
  unfold linspace.
  assert (H : forall y1, List.length y1 = n ->
              List.length (if (1 <? n)%nat
                           then set_last (map (fun v => add v start) y1) stop
                           else map (fun v => add v start) y1) = n).
  { intros y1 Hy. destruct (1 <? n)%nat eqn:Hn.
    - rewrite set_last_length; [now rewrite length_map|].
      apply Nat.ltb_lt in Hn. destruct y1; cbn in *; [lia|discriminate].
    - now rewrite length_map. }
  apply H.
  destruct (0 <? Z.of_nat n - 1); [destruct (eqb _ zero)|];
    now rewrite length_map, arange_length.
Qed.

(** The last sample is [stop] itself, whatever the step. *)
Lemma linspace_last (start stop : float) (n : nat) (d : float) :
  (1 < n)%nat -> last (linspace start stop n) d = stop.
Proof.
  intros Hn. unfold linspace. apply Nat.ltb_lt in Hn. rewrite Hn.
  apply last_last.
Qed.

(** The samples before the last one, when the ramp starts at [0.0] and the
    span is a finite positive float. *)
Lemma linspace_nth (m : positive) (e : Z) (n i : nat) :
  (S i < n)%nat ->
  let v := S754_finite false m e in
  let dv := of_int (Z.of_nat n - 1) in
  nth i (linspace (of_int 0) v n) zero
  = if eqb (div v dv) zero then mul (div (of_int (Z.of_nat i)) dv) v
    else mul (of_int (Z.of_nat i)) (div v dv).
Proof.
  intros Hi v dv. unfold linspace.
  assert (Hn : (1 <? n)%nat = true) by (apply Nat.ltb_lt; lia).
  assert (Hd : (0 <? Z.of_nat n - 1) = true) by (apply Z.ltb_lt; lia).
  rewrite Hn, Hd. unfold set_last.
  change (sub v (of_int 0)) with v. fold dv.
  assert (Sv : signbit v = false) by reflexivity.
  assert (Sd : signbit dv = false) by (apply signbit_of_int; lia).
  assert (Si : signbit (of_int (Z.of_nat i)) = false)
    by (apply signbit_of_int; lia).
  rewrite app_nth1.
  2:{ rewrite removelast_length, length_map.
      destruct (eqb (div v dv) zero); rewrite length_map, arange_length; lia. }
  rewrite nth_removelast.
  2:{ rewrite length_map.
      destruct (eqb (div v dv) zero); rewrite length_map, arange_length; lia. }
  rewrite (nth_map_lt _ _ _ zero).
  2:{ destruct (eqb (div v dv) zero); rewrite length_map, arange_length; lia. }
  change (of_int 0) with zero.
  destruct (eqb (div v dv) zero).
  - rewrite (nth_map_lt _ _ _ zero) by (rewrite arange_length; lia).
    rewrite nth_arange by lia.
    apply add_zero_r. apply signbit_mul; [|exact Sv].
    now apply signbit_div.
  - rewrite (nth_map_lt _ _ _ zero) by (rewrite arange_length; lia).
    rewrite nth_arange by lia.
    apply add_zero_r. apply signbit_mul; [exact Si|].
    now apply signbit_div.
Qed.

(** The first of 1000 samples is [0.0]. *)
Lemma linspace_first (m : positive) (e : Z) :
  valid (S754_finite false m e) = true ->
  nth 0 (linspace (of_int 0) (S754_finite false m e) 1000) zero = zero.
Proof.
  intros Hv. rewrite linspace_nth by lia.
  change (of_int (Z.of_nat 1000 - 1)) with (of_int 999).
  change (of_int (Z.of_nat 0)) with zero.
  pose proof (div_999_finite false m e Hv) as Hf.
  assert (Hs : signbit (div (S754_finite false m e) (of_int 999)) = false)
    by (apply signbit_div; reflexivity).
  destruct (div (S754_finite false m e) (of_int 999)) as [s|s| |s m' e'];
    cbn in Hs, Hf; try discriminate; subst; reflexivity.
Qed.

End LinspaceFacts.

Section PlotterFacts.

Variable np_sin : float -> float.

(** ** Constants and slider ticks *)

Lemma SLIDER_MAX_eq : SLIDER_MAX = 251.
Proof. vm_compute. reflexivity. Qed.

Lemma bound_range (v : Z) : 1 <= bound v <= 251.
Proof.
  unfold bound, slider_minimum, slider_maximum. rewrite SLIDER_MAX_eq. lia.
Qed.

Lemma bound_id (v : Z) : 1 <= v <= 251 -> bound v = v.
Proof.
  unfold bound, slider_minimum, slider_maximum. rewrite SLIDER_MAX_eq. lia.
Qed.

(** A property checked on every integer of a finite range holds on it. *)
Lemma range_check (P : Z -> bool) (lo : Z) (n : nat) :
  forallb P (map (fun i => lo + Z.of_nat i) (seq 0 n)) = true ->
  forall t, lo <= t < lo + Z.of_nat n -> P t = true.
Proof.
  intros H t Ht. rewrite forallb_forall in H. apply H.
  apply in_map_iff. exists (Z.to_nat (t - lo)). split; [lia|].
  apply in_seq. lia.
Qed.

Lemma ticks_checked : forall t, 1 <= t <= 251 -> tick_ok t = true.
Proof.
  intros t Ht. apply (range_check tick_ok 1 251); [|lia].
  vm_compute. reflexivity.
Qed.

(** Dividing a tick by the scale and multiplying back gives the tick. *)
Lemma tick_round_trip (t : Z) :
  1 <= t <= 251 ->
  value_to_tick (int_truediv t SLIDER_SCALE_FACTOR) = Val t.
Proof.
  intros Ht. pose proof (ticks_checked t Ht) as H. unfold tick_ok in H.
  destruct (value_to_tick _) as [u|]; [|discriminate].
  rewrite !andb_true_iff in H. destruct H as [[[H _] _] _].
  apply Z.eqb_eq in H. now subst.
Qed.

Lemma tick_positive (t : Z) :
  1 <= t <= 251 -> ltb zero (int_truediv t SLIDER_SCALE_FACTOR) = true.
Proof.
  intros Ht. pose proof (ticks_checked t Ht) as H. unfold tick_ok in H.
  destruct (value_to_tick _) as [u|]; [|discriminate].
  rewrite !andb_true_iff in H. tauto.
Qed.

Lemma tick_finite_valid (t : Z) :
  1 <= t <= 251 ->
  is_finite (int_truediv t SLIDER_SCALE_FACTOR) = true
  /\ valid (int_truediv t SLIDER_SCALE_FACTOR) = true.
Proof.
  intros Ht. pose proof (ticks_checked t Ht) as H. unfold tick_ok in H.
  destruct (value_to_tick _) as [u|]; [|discriminate].
  rewrite !andb_true_iff in H. tauto.
Qed.

Lemma fits_c_int_tick (t : Z) : 1 <= t <= 251 -> fits_c_int t = true.
Proof.
  intros Ht. unfold fits_c_int.
  apply andb_true_intro; split; [apply Z.leb_le | apply Z.ltb_lt];
    change (2 ^ 31) with 2147483648; lia.
Qed.

(** ** What one handler call does *)

(** The slot, run with the slider already at [t]: nothing re-enters. *)
Lemma slot_at_tick (f : nat) (t : Z) (s : state) :
  1 <= t <= 251 -> slider s = t ->
  _on_slider_changed np_sin (S f) t s
  = Return tt (drawn np_sin
                 (refreshed np_sin
                    (set_x (int_truediv t SLIDER_SCALE_FACTOR) s))).
Proof.
  intros Ht Hs. cbn [_on_slider_changed].
  unfold bind at 1, modify at 1.
  unfold bind at 1, update_ui_values_with.
  unfold bind at 1, get at 1.
  unfold bind at 1, lift at 1. cbn [x set_x].
  rewrite (tick_round_trip t Ht).
  unfold bind at 1, QSlider_setValue at 1.
  rewrite (fits_c_int_tick t Ht), (bound_id t Ht). cbn [slider set_x].
  rewrite Hs, Z.eqb_refl.
  reflexivity.
Qed.

Lemma refresh_spec (f : nat) (s : state) :
  _update_ui_values np_sin (S f) s = refresh_outcome np_sin s.
Proof.
  unfold _update_ui_values, update_ui_values_with, refresh_outcome.
  unfold bind at 1, get at 1.
  unfold bind at 1, lift at 1.
  destruct (value_to_tick (x s)) as [n|e]; [|reflexivity].
  unfold bind at 1, QSlider_setValue at 1.
  destruct (fits_c_int n); [|reflexivity].
  destruct (bound n =? slider s) eqn:Hb; [reflexivity|].
  rewrite (slot_at_tick f (bound n)); [reflexivity| apply bound_range |reflexivity].
Qed.

Lemma slider_op_spec (f : nat) (t : Z) (s : state) :
  1 <= t <= 251 ->
  run_op np_sin (S f) (SetFromSlider t) s = Return tt (moved_to np_sin t s).
Proof.
  intros Ht. unfold run_op. now rewrite (slot_at_tick f t) by easy.
Qed.

Lemma reset_op_spec (f : nat) (s : state) :
  run_op np_sin (S f) Reset s
  = match refresh_outcome np_sin (set_x X_MAX_DEFAULT s) with
    | Return _ s' => Return tt (drawn np_sin s')
    | o => o
    end.
Proof.
  unfold run_op, _on_reset_clicked.
  unfold bind at 1, modify at 1.
  unfold bind at 1. rewrite refresh_spec.
  destruct (refresh_outcome _ _); reflexivity.
Qed.

Lemma text_op_spec (f : nat) (raw : string) (s : state) :
  run_op np_sin (S f) (SetFromText raw) s
  = let s0 := set_input_field raw s in
    match py_float raw with
    | Val v =>
        if ltb zero v then
          match refresh_outcome np_sin (set_x v s0) with
          | Return _ s' => Return tt (drawn np_sin s')
          | Raise ValueError s' => refresh_outcome np_sin s'
          | o => o
          end
        else Return tt s0
    | Exc ValueError => refresh_outcome np_sin s0
    | Exc e => Raise e s0
    end.
Proof.
  unfold run_op, _on_input_field_changed, try_except.
  unfold bind at 1, get at 1.
  unfold bind at 1, lift at 1. cbn [input_field set_input_field].
  destruct (py_float raw) as [v|[|]]; cbn [exn_eqb].
  - change (of_int 0) with zero. destruct (ltb zero v); [|reflexivity].
    unfold bind at 1, modify at 1.
    unfold bind at 1. rewrite refresh_spec.
    destruct (refresh_outcome _ _) as [[] s'|[|] s'|]; cbn [exn_eqb];
      try reflexivity.
    apply refresh_spec.
  - now rewrite refresh_spec.
  - reflexivity.
Qed.

(** ** The value stays positive *)

Lemma refresh_outcome_cases (s : state) :
  (exists e, refresh_outcome np_sin s = Raise e s)
  \/ refresh_outcome np_sin s = Return tt (refreshed np_sin s)
  \/ (exists t, 1 <= t <= 251 /\ t <> slider s
                /\ refresh_outcome np_sin s = Return tt (moved_to np_sin t s)).
Proof.
  unfold refresh_outcome.
  destruct (value_to_tick (x s)) as [n|e]; [|left; now exists e].
  destruct (fits_c_int n); [|left; now exists OverflowError].
  destruct (bound n =? slider s) eqn:Hb; [right; now left|].
  right; right. exists (bound n). apply Z.eqb_neq in Hb.
  split; [apply bound_range|]. split; [exact Hb|reflexivity].
Qed.

Lemma well_formed_moved_to (t : Z) (s : state) :
  1 <= t <= 251 -> well_formed (moved_to np_sin t s).
Proof.
  intros Ht. split.
  - exact (tick_positive t Ht).
  - change (slider_minimum <= t <= slider_maximum).
    unfold slider_minimum, slider_maximum. rewrite SLIDER_MAX_eq. lia.
Qed.

Lemma X_MAX_DEFAULT_positive : ltb zero X_MAX_DEFAULT = true.
Proof. vm_compute. reflexivity. Qed.

Lemma well_formed_initial : well_formed (initial np_sin).
Proof. split; vm_compute; intuition discriminate. Qed.

(** After a refresh, whatever its outcome, the state is well formed. *)
Lemma refresh_well_formed (s : state) :
  well_formed s ->
  exists s', settle (refresh_outcome np_sin s) = Some s' /\ well_formed s'.
Proof.
  intros Hs.
  destruct (refresh_outcome_cases s) as [[e H]|[H|[t [Ht [_ H]]]]]; rewrite H;
    cbn [settle]; eexists; split; try reflexivity.
  - exact Hs.
  - exact Hs.
  - now apply well_formed_moved_to.
Qed.

Lemma step_well_formed (f : nat) (o : op) (s : state) :
  valid_op o -> well_formed s ->
  exists s', settle (run_op np_sin (S f) o s) = Some s' /\ well_formed s'.
Proof.
  intros Ho Hs. destruct o as [t|raw|].
  - cbn [valid_op] in Ho. unfold slider_minimum, slider_maximum in Ho.
    rewrite SLIDER_MAX_eq in Ho.
    rewrite slider_op_spec by exact Ho. eexists; split; [reflexivity|].
    now apply well_formed_moved_to.
  - rewrite text_op_spec. cbv zeta.
    assert (H0 : well_formed (set_input_field raw s)) by exact Hs.
    destruct (py_float raw) as [v|[|]].
    + destruct (ltb zero v) eqn:Hv.
      * assert (H1 : well_formed (set_x v (set_input_field raw s)))
          by (split; [exact Hv | apply Hs]).
        destruct (refresh_outcome_cases (set_x v (set_input_field raw s)))
          as [[e H]|[H|[t [Ht [_ H]]]]]; rewrite H.
        -- destruct e.
           ++ now apply refresh_well_formed.
           ++ eexists; split; [reflexivity|exact H1].
        -- eexists; split; [reflexivity|exact H1].
        -- eexists; split; [reflexivity|].
           now apply (well_formed_moved_to t).
      * eexists; split; [reflexivity|exact H0].
    + now apply refresh_well_formed.
    + eexists; split; [reflexivity|exact H0].
  - rewrite reset_op_spec.
    assert (H1 : well_formed (set_x X_MAX_DEFAULT s))
      by (split; [exact X_MAX_DEFAULT_positive | apply Hs]).
    destruct (refresh_outcome_cases (set_x X_MAX_DEFAULT s))
      as [[e H]|[H|[t [Ht [_ H]]]]]; rewrite H.
    + eexists; split; [reflexivity|exact H1].
    + eexists; split; [reflexivity|exact H1].
    + eexists; split; [reflexivity|].
      now apply (well_formed_moved_to t).
Qed.

Lemma run_well_formed (f : nat) (ops : list op) :
  Forall valid_op ops ->
  forall s, well_formed s ->
  exists s', run np_sin (S f) ops s = Some s' /\ well_formed s'.
Proof.
  induction 1 as [|o ops Ho _ IH]; intros s Hs.
  - exists s. now split.
  - destruct (step_well_formed f o s Ho Hs) as [s1 [E1 H1]].
    cbn [run]. rewrite E1. now apply IH.
Qed.

(** A text that parses to a number that is not positive changes nothing
    but the text field, which keeps the text as typed. *)
Lemma nonpositive_text_spec (f : nat) (raw : string) (v : float) (s : state) :
  py_float raw = Val v -> ltb zero v = false ->
  run_op np_sin (S f) (SetFromText raw) s
  = Return tt (set_input_field raw s).
Proof.
  intros Hp Hv. rewrite text_op_spec. cbv zeta. now rewrite Hp, Hv.
Qed.

(** C2: after any sequence of operations from the initial state the handlers
    have all terminated and the stored value is positive; and from the state
    so reached, a text that parses to a non-positive number is rejected with
    the value retained. *)
Theorem value_stays_positive (f : nat) (ops : list op) :
  Forall valid_op ops ->
  exists s,
    run np_sin (S f) ops (initial np_sin) = Some s
    /\ ltb zero (x s) = true
    /\ forall raw v,
        py_float raw = Val v -> ltb zero v = false ->
        exists s', settle (run_op np_sin (S f) (SetFromText raw) s) = Some s'
                   /\ x s' = x s.
Proof.
  intros Hops.
  destruct (run_well_formed f ops Hops _ well_formed_initial) as [s [E [Hx _]]].
  exists s. repeat split; auto.
  intros raw v Hp Hv. rewrite (nonpositive_text_spec f raw v s Hp Hv).
  eexists; split; reflexivity.
Qed.

(** ** Slider events *)

(** C3: a slider event at a tick of the range stores the tick divided by
    the scale, and the label shows the sine of that value to four decimals;
    the curve then spans from 0 to the value.  Tick 1 stores the float 0.1. *)
Theorem slider_sets_value (f : nat) (t : Z) (s : state) :
  slider_minimum <= t <= slider_maximum ->
  (exists s',
      run_op np_sin (S f) (SetFromSlider t) s = Return tt s'
      /\ x s' = int_truediv t SLIDER_SCALE_FACTOR
      /\ slider s' = t
      /\ input_field s' = format_f 2 (x s')
      /\ result_label s'
         = ("sin(" ++ format_f 2 (x s') ++ ") = "
            ++ format_f 4 (np_sin (x s')))%string
      /\ nth 0 (x_vals (axes s')) zero = zero
      /\ last (x_vals (axes s')) zero = x s')
  /\ py_float "0.1" = Val (int_truediv 1 SLIDER_SCALE_FACTOR).
Proof.
  intros Ht. unfold slider_minimum, slider_maximum in Ht.
  rewrite SLIDER_MAX_eq in Ht. split; [|vm_compute; reflexivity].
  exists (moved_to np_sin t s). split; [now apply slider_op_spec|].
  repeat split.
  - destruct (tick_finite_valid t Ht) as [Hf Hv].
    destruct (positive_finite _ Hf (tick_positive t Ht)) as [m [e Hx]].
    change (nth 0 (linspace (of_int 0) (int_truediv t SLIDER_SCALE_FACTOR) 1000)
                zero = zero).
    rewrite Hx in *. now apply linspace_first.
  - apply linspace_last. lia.
Qed.

(** ** The tick a value asks for *)

Lemma trunc_quot (s : bool) (m : positive) (e : Z) :
  trunc s m e
  = Z.quot (Qnum (to_Q (S754_finite s m e)))
           (Zpos (Qden (to_Q (S754_finite s m e)))).
Proof.
  unfold trunc, to_Q.
  destruct e as [|k|k].
  - destruct s; cbn [Qnum Qden Qopp inject_Z]; rewrite Z.quot_1_r;
      rewrite Z.shiftl_mul_pow2 by lia; reflexivity.
  - destruct s; cbn [Qnum Qden Qopp inject_Z]; rewrite Z.quot_1_r;
      rewrite Z.shiftl_mul_pow2 by lia; reflexivity.
  - rewrite Z.shiftr_div_pow2 by lia.
    assert (Hp : Zpos (2 ^ k) = 2 ^ Zpos k) by apply Pos2Z.inj_pow.
    destruct s; cbn [Qnum Qden Qopp]; rewrite Hp.
    + rewrite Z.quot_opp_l by lia. rewrite Z.quot_div_nonneg; lia.
    + rewrite Z.quot_div_nonneg; lia.
Qed.

(** C10: a refresh asks the slider for [int(value * 10)], the product cut
    toward zero, and the slider takes that tick clamped to its range; 6.28
    and 6.29 both ask for tick 62. *)
Theorem refresh_sets_truncated_tick (f : nat) (s : state) (n : Z) :
  value_to_tick (x s) = Val n -> fits_c_int n = true ->
  (exists s',
      _update_ui_values np_sin (S f) s = Return tt s'
      /\ slider s' = bound n
      /\ (slider_minimum <= n <= slider_maximum -> slider s' = n))
  /\ (let q := to_Q (mul (x s) (of_int SLIDER_SCALE_FACTOR)) in
      n = Z.quot (Qnum q) (Zpos (Qden q)))
  /\ (exists v, py_float "6.28" = Val v /\ value_to_tick v = Val 62)
  /\ (exists v, py_float "6.29" = Val v /\ value_to_tick v = Val 62).
Proof.
  intros Hn Hc. repeat split.
  - assert (Hid : slider_minimum <= n <= slider_maximum -> bound n = n).
    { unfold slider_minimum, slider_maximum. rewrite SLIDER_MAX_eq.
      apply bound_id. }
    rewrite refresh_spec. unfold refresh_outcome. rewrite Hn, Hc.
    destruct (bound n =? slider s) eqn:Hb.
    + apply Z.eqb_eq in Hb. eexists; split; [reflexivity|].
      cbn [slider refreshed set_result_label set_input_field].
      split; [now symmetry|]. intros H. rewrite <- Hb. now apply Hid.
    + eexists; split; [reflexivity|]. split; [reflexivity|exact Hid].
  - unfold value_to_tick, to_int in Hn. cbv zeta.
    destruct (mul (x s) (of_int SLIDER_SCALE_FACTOR)) as [sg|sg| |sg m e];
      try discriminate.
    + injection Hn as <-. reflexivity.
    + injection Hn as <-. apply trunc_quot.
  - eexists; split; vm_compute; reflexivity.
  - eexists; split; vm_compute; reflexivity.
Qed.

(** ** Text and reset events, and the slider's echo *)

Lemma initial_x : x (initial np_sin) = X_MAX_DEFAULT.
Proof. vm_compute. reflexivity. Qed.

Lemma initial_slider : slider (initial np_sin) = 125.
Proof. vm_compute. reflexivity. Qed.

(** An accepted text: the value is stored; if the tick it asks for is not
    where the slider stands, the slider moves and its slot stores the
    tick's value instead. *)
Lemma text_accepted_spec (f : nat) (raw : string) (v : float) (n : Z)
      (s : state) :
  py_float raw = Val v -> ltb zero v = true ->
  value_to_tick v = Val n -> fits_c_int n = true ->
  run_op np_sin (S f) (SetFromText raw) s
  = Return tt
      (let s1 := set_x v (set_input_field raw s) in
       if bound n =? slider s then drawn np_sin (refreshed np_sin s1)
       else drawn np_sin (moved_to np_sin (bound n) s1)).
Proof.
  intros Hp Hv Hn Hc. rewrite text_op_spec. cbv zeta. rewrite Hp, Hv.
  unfold refresh_outcome. cbn [x slider set_x set_input_field].
  rewrite Hn, Hc. now destruct (bound n =? slider s).
Qed.

Lemma reset_spec (f : nat) (s : state) :
  run_op np_sin (S f) Reset s
  = Return tt
      (let s1 := set_x X_MAX_DEFAULT s in
       if 125 =? slider s then drawn np_sin (refreshed np_sin s1)
       else drawn np_sin (moved_to np_sin 125 s1)).
Proof.
  rewrite reset_op_spec. unfold refresh_outcome. cbn [x slider set_x].
  replace (value_to_tick X_MAX_DEFAULT) with (@Val Z 125)
    by (vm_compute; reflexivity).
  change (fits_c_int 125) with true. cbv iota.
  rewrite (bound_id 125) by lia. now destruct (125 =? slider s).
Qed.

(** C1: committing "-1" in the initial state keeps the value, but the text
    field is left showing "-1" instead of the formatted value "12.57". *)
Theorem nonpositive_text_not_reverted (f : nat) :
  exists s',
    run_op np_sin (S f) (SetFromText "-1") (initial np_sin) = Return tt s'
    /\ x s' = x (initial np_sin)
    /\ input_field s' = "-1"%string
    /\ format_f 2 (x (initial np_sin)) = "12.57"%string
    /\ input_field s' <> format_f 2 (x (initial np_sin)).
Proof.
  eexists. split.
  - apply (nonpositive_text_spec f "-1" (S754_finite true 4503599627370496 (-52)));
      vm_compute; reflexivity.
  - cbn [x input_field set_input_field]. rewrite initial_x.
    repeat split; try (vm_compute; reflexivity).
    vm_compute. discriminate.
Qed.

(** C4: committing "6.28" in the initial state moves the slider from 125 to
    62, and the slider's slot overwrites the value with 62/10: the stored
    value is the float 6.2, not 6.28, and the field shows "6.20". *)
Theorem typed_value_replaced_by_tick (f : nat) :
  exists s',
    run_op np_sin (S f) (SetFromText "6.28") (initial np_sin) = Return tt s'
    /\ x s' = int_truediv 62 SLIDER_SCALE_FACTOR
    /\ py_float "6.2" = Val (x s')
    /\ py_float "6.28" <> Val (x s')
    /\ slider s' = 62
    /\ input_field s' = "6.20"%string.
Proof.
  exists (drawn np_sin
            (moved_to np_sin 62
               (set_x (S754_finite false 7070651414971679 (-50))
                  (set_input_field "6.28" (initial np_sin))))).
  split.
  - rewrite (text_accepted_spec f "6.28"
               (S754_finite false 7070651414971679 (-50)) 62);
      [|vm_compute; reflexivity ..].
    cbv zeta. rewrite initial_slider.
    replace (bound 62) with 62 by (symmetry; apply bound_id; lia).
    reflexivity.
  - cbn [x slider input_field drawn moved_to refreshed set_axes
           set_result_label set_input_field set_x set_slider].
    repeat split; try (vm_compute; reflexivity).
    vm_compute. discriminate.
Qed.

(** C5: after a slider event at tick 1, Reset moves the slider back to 125
    and the slider's slot overwrites the value with 125/10: the stored
    value is 12.5, not the default 4*pi. *)
Theorem reset_value_replaced_by_tick (f : nat) :
  exists s1 s2,
    run np_sin (S f) [SetFromSlider 1] (initial np_sin) = Some s1
    /\ run_op np_sin (S f) Reset s1 = Return tt s2
    /\ x s2 = int_truediv 125 SLIDER_SCALE_FACTOR
    /\ x s2 <> X_MAX_DEFAULT
    /\ input_field s2 = "12.50"%string.
Proof.
  exists (moved_to np_sin 1 (initial np_sin)). eexists. split; [|split].
  - cbn [run]. rewrite slider_op_spec by lia. reflexivity.
  - rewrite reset_spec. cbv zeta. reflexivity.
  - cbn [x slider input_field drawn moved_to refreshed set_axes
           set_result_label set_input_field set_x set_slider].
    change (125 =? 1) with false. cbv iota.
    cbn [x slider input_field drawn moved_to refreshed set_axes
           set_result_label set_input_field set_x set_slider].
    repeat split; try (vm_compute; reflexivity).
    vm_compute. discriminate.
Qed.

(** C8: after a slider event at tick 1, one Reset leaves the value at 12.5
    (the slider's echo), while a second Reset finds the slider already at
    125 and leaves the value at 4*pi: the two states differ. *)
Theorem reset_twice_differs (f : nat) :
  exists s1 a b,
    run np_sin (S f) [SetFromSlider 1] (initial np_sin) = Some s1
    /\ run np_sin (S f) [Reset] s1 = Some a
    /\ run np_sin (S f) [Reset; Reset] s1 = Some b
    /\ x a = int_truediv 125 SLIDER_SCALE_FACTOR
    /\ x b = X_MAX_DEFAULT
    /\ input_field a = "12.50"%string
    /\ input_field b = "12.57"%string
    /\ a <> b.
Proof.
  exists (moved_to np_sin 1 (initial np_sin)).
  exists (drawn np_sin
            (moved_to np_sin 125
               (set_x X_MAX_DEFAULT (moved_to np_sin 1 (initial np_sin))))).
  eexists.
  assert (E1 : run_op np_sin (S f) Reset (moved_to np_sin 1 (initial np_sin))
               = Return tt
                   (drawn np_sin
                      (moved_to np_sin 125
                         (set_x X_MAX_DEFAULT
                            (moved_to np_sin 1 (initial np_sin)))))).
  { rewrite reset_spec. reflexivity. }
  split; [|split; [|split]].
  - cbn [run]. rewrite slider_op_spec by lia. reflexivity.
  - cbn [run]. rewrite E1. reflexivity.
  - cbn [run]. rewrite E1. cbn [settle]. rewrite reset_spec. cbv zeta.
    cbn [slider drawn moved_to refreshed set_axes
           set_result_label set_input_field set_x set_slider].
    change (125 =? 125) with true. cbv iota. reflexivity.
  - split; [reflexivity|]. split; [reflexivity|].
    split; [vm_compute; reflexivity|]. split; [vm_compute; reflexivity|].
    intros H. apply (f_equal x) in H.
    cbn [x slider input_field drawn moved_to refreshed set_axes
           set_result_label set_input_field set_x set_slider] in H.
    revert H. vm_compute. discriminate.
Qed.

(** ** Slider and value stay in step *)

(** After a refresh, whatever its outcome, slider and value are in step. *)
Lemma refresh_in_step (s : state) :
  forall s', settle (refresh_outcome np_sin s) = Some s' -> in_step s'.
Proof.
  intros s' E. unfold refresh_outcome in E.
  destruct (value_to_tick (x s)) as [n|e] eqn:Hn.
  - destruct (fits_c_int n) eqn:Hc.
    + destruct (bound n =? slider s) eqn:Hb; injection E as <-.
      * apply Z.eqb_eq in Hb. intros k Hk _.
        change (x (refreshed np_sin s)) with (x s) in Hk.
        rewrite Hn in Hk. injection Hk as <-. exact Hb.
      * intros k Hk _.
        change (value_to_tick (int_truediv (bound n) SLIDER_SCALE_FACTOR)
                = Val k) in Hk.
        rewrite (tick_round_trip _ (bound_range n)) in Hk.
        assert (Ek : k = bound n) by congruence. rewrite Ek.
        apply bound_id, bound_range.
    + injection E as <-. intros k Hk Hf.
      rewrite Hn in Hk. injection Hk as <-. congruence.
  - injection E as <-. intros k Hk _. congruence.
Qed.

Lemma in_step_initial : in_step (initial np_sin).
Proof.
  intros n Hn _. rewrite initial_x in Hn. rewrite initial_slider.
  replace (value_to_tick X_MAX_DEFAULT) with (@Val Z 125) in Hn
    by (vm_compute; reflexivity).
  injection Hn as <-. apply bound_id. lia.
Qed.

Lemma step_in_step (f : nat) (o : op) (s : state) :
  valid_op o -> in_step s ->
  forall s', settle (run_op np_sin (S f) o s) = Some s' -> in_step s'.
Proof.
  intros Ho Hs s'. destruct o as [t|raw|].
  - cbn [valid_op] in Ho. unfold slider_minimum, slider_maximum in Ho.
    rewrite SLIDER_MAX_eq in Ho.
    rewrite slider_op_spec by exact Ho. intros E. injection E as <-.
    intros k Hk _.
    change (value_to_tick (int_truediv t SLIDER_SCALE_FACTOR) = Val k) in Hk.
    rewrite (tick_round_trip t Ho) in Hk. injection Hk as <-.
    now apply bound_id.
  - rewrite text_op_spec. cbv zeta.
    destruct (py_float raw) as [v|[|]].
    + destruct (ltb zero v).
      * destruct (refresh_outcome np_sin (set_x v (set_input_field raw s)))
          as [[] s1|[|] s1|] eqn:E1; cbn [settle].
        -- intros E. injection E as <-. change (in_step s1).
           apply (refresh_in_step (set_x v (set_input_field raw s))).
           now rewrite E1.
        -- apply refresh_in_step.
        -- intros E. injection E as <-.
           apply (refresh_in_step (set_x v (set_input_field raw s))).
           now rewrite E1.
        -- discriminate.
      * intros E. injection E as <-. exact Hs.
    + apply refresh_in_step.
    + intros E. injection E as <-. exact Hs.
  - rewrite reset_op_spec.
    destruct (refresh_outcome np_sin (set_x X_MAX_DEFAULT s))
      as [[] s1|e s1|] eqn:E1; unfold settle.
    + intros E. injection E as <-. change (in_step s1).
      apply (refresh_in_step (set_x X_MAX_DEFAULT s)). now rewrite E1.
    + intros E. injection E as <-.
      apply (refresh_in_step (set_x X_MAX_DEFAULT s)). now rewrite E1.
    + intros E. discriminate E.
Qed.

Lemma run_in_step (f : nat) (ops : list op) :
  Forall valid_op ops ->
  forall s s', in_step s -> run np_sin (S f) ops s = Some s' -> in_step s'.
Proof.
  induction 1 as [|o ops Ho _ IH]; intros s s' Hs E; cbn [run] in E.
  - injection E as <-. exact Hs.
  - destruct (settle (run_op np_sin (S f) o s)) as [s1|] eqn:E1;
      [|discriminate].
    apply (IH s1 s'); [|exact E].
    now apply (step_in_step f o s).
Qed.

(** In every state the program can reach, a text that is not a number
    leaves value and slider as they were. *)
Lemma rejected_text_keeps_value (f : nat) (ops : list op) (s : state)
      (raw : string) :
  Forall valid_op ops ->
  run np_sin (S f) ops (initial np_sin) = Some s ->
  py_float raw = Exc ValueError ->
  exists s',
    settle (run_op np_sin (S f) (SetFromText raw) s) = Some s'
    /\ x s' = x s /\ slider s' = slider s.
Proof.
  intros Hops Hrun Hp.
  pose proof (run_in_step f ops Hops _ _ in_step_initial Hrun) as Hs.
  rewrite text_op_spec. cbv zeta. rewrite Hp.
  unfold refresh_outcome. cbn [x slider set_input_field].
  destruct (value_to_tick (x s)) as [n|e] eqn:Hn;
    [|eexists; repeat split; reflexivity].
  destruct (fits_c_int n) eqn:Hc; [|eexists; repeat split; reflexivity].
  rewrite (Hs n Hn Hc), Z.eqb_refl. eexists; repeat split; reflexivity.
Qed.

(** A text that is not a number: when the slider already stands at the
    value's tick, the field and label are rewritten from the value, which
    is kept. *)
Lemma nonnumeric_text_reverts (f : nat) (raw : string) (n : Z) (s : state) :
  py_float raw = Exc ValueError ->
  value_to_tick (x s) = Val n -> fits_c_int n = true ->
  bound n = slider s ->
  run_op np_sin (S f) (SetFromText raw) s = Return tt (refreshed np_sin s).
Proof.
  intros Hp Hn Hc Hb. rewrite text_op_spec. cbv zeta. rewrite Hp.
  unfold refresh_outcome. cbn [x slider set_input_field].
  rewrite Hn, Hc, Hb, Z.eqb_refl. reflexivity.
Qed.

(** Reset with the slider already at the default's tick does store 4*pi. *)
Lemma reset_at_default_tick (f : nat) (s : state) :
  slider s = 125 ->
  run_op np_sin (S f) Reset s
  = Return tt (drawn np_sin (refreshed np_sin (set_x X_MAX_DEFAULT s))).
Proof. intros Hs. rewrite reset_spec. cbv zeta. now rewrite Hs. Qed.

(** ** Round trip through the text field *)

(** A tick written with one decimal reads as the tick's own value. *)
Lemma decimal_ticks_checked (t : Z) :
  1 <= t <= 251 ->
  round_decimal false (10 * t) (-2) = int_truediv t SLIDER_SCALE_FACTOR.
Proof.
  intros Ht. apply identical_eq.
  apply (range_check decimal_tick_ok 1 251); [|lia].
  vm_compute. reflexivity.
Qed.

(** The first two-decimal number whose tick no longer fits a C [int]. *)
Lemma tick_at_int_max :
  value_to_tick (round_decimal false 21474836480 (-2)) = Val 2147483648.
Proof. vm_compute. reflexivity. Qed.

(** Committing the text of the stored value asks for the tick the slider
    already stands at, unless the text is a tick written out, which reads
    as that tick's own value. *)
Lemma round_trip_tick (s : state) (m : positive) (e n : Z) :
  in_step s -> x s = S754_finite false m e ->
  let v := round_decimal false (scaled_round 2 m e) (-2) in
  ltb zero v = true ->
  value_to_tick v = Val n -> fits_c_int n = true ->
  bound n = slider s \/ int_truediv (bound n) SLIDER_SCALE_FACTOR = v.
Proof.
  intros Hs Hx v Hpos Hn Hfit.
  pose proof (scaled_round_nonneg 2 m e) as HN0.
  pose proof (scaled_round_close m e) as HX.
  unfold v in *. clear v.
  set (N := scaled_round 2 m e) in *.
  destruct N as [|Np|Np] eqn:EN; [discriminate Hpos| |lia].
  rewrite <- EN in *. clear HN0.
  assert (HN1 : 1 <= N) by lia.
  pose proof (round_decimal_core Np) as Hcore.
  pose proof (round_decimal_close N ltac:(lia)) as HV.
  rewrite <- EN in Hcore.
  destruct (round_decimal false N (-2)) as [sg|sg| |sg mv ev] eqn:Ev;
    try contradiction; try discriminate.
  destruct Hcore as [-> _].
  specialize (HV eq_refl).
  apply Qabs_Qle_condition in HV. destruct HV as [HV1 HV2].
  apply Qabs_Qle_condition in HX. destruct HX as [HX1 HX2].
  pose proof (hundredths N) as HD.
  pose proof (inject_tens N) as HT.
  pose proof (Z.mod_pos_bound N 10 ltac:(lia)) as Hr.
  pose proof (Z.div_mod N 10 ltac:(lia)) as EN10.
  set (q := N / 10) in *. set (r := N mod 10) in *.
  assert (Hq0 : 0 <= q) by lia.
  pose proof (Qle_inject 0 r ltac:(lia)) as Hr0.
  pose proof (Qle_inject r 9 ltac:(lia)) as Hr9.
  pose proof (Qle_inject 0 q Hq0) as Hq0Q.
  change (inject_Z 0) with 0%Q in *. change (inject_Z 9) with 9%Q in *.
  change (2 ^ 52)%positive with 4503599627370496%positive in *.
  set (V := to_Q (S754_finite false mv ev)) in *.
  set (X := to_Q (S754_finite false m e)) in *.
  set (D := (N # 100)%Q) in *.
  assert (HVlow : (1 # 256 <= V)%Q).
  { pose proof (Qle_inject 1 N HN1) as H1. change (inject_Z 1) with 1%Q in H1.
    clearbody V X D. lra. }
  pose proof (tick_bounds mv ev n HVlow Hn) as [Hn1 Hn2].
  fold V in Hn1, Hn2.
  change (2 ^ 52)%positive with 4503599627370496%positive in *.
  assert (Hnfit : n < 2147483648).
  { unfold fits_c_int in Hfit. apply andb_prop in Hfit.
    destruct Hfit as [_ H]. apply Z.ltb_lt in H. exact H. }
  pose proof (Qle_inject n 2147483647 ltac:(lia)) as HnQ.
  change (inject_Z 2147483647) with 2147483647%Q in HnQ.
  assert (HXlow : (1 # 256 <= X)%Q).
  { pose proof (Qle_inject 1 N HN1) as H1. change (inject_Z 1) with 1%Q in H1.
    clearbody V X D. lra. }
  assert (HXup : (X <= inject_Z (2 ^ 40))%Q).
  { change (inject_Z (2 ^ 40)) with 1099511627776%Q.
    clearbody V X D. lra. }
  destruct (tick_exists m e HXlow HXup) as [k Hk].
  pose proof (tick_bounds m e k HXlow Hk) as [Hk1 Hk2].
  fold X in Hk1, Hk2.
  change (2 ^ 52)%positive with 4503599627370496%positive in *.
  rewrite <- Hx in Hk. specialize (Hs k Hk).
  destruct (Z_lt_le_dec N 2520) as [Hsmall|Hbig].
  - assert (Hq : q <= 251) by lia.
    pose proof (Qle_inject q 251 Hq) as HqQ.
    change (inject_Z 251) with 251%Q in HqQ.
    destruct (Z.eq_dec r 0) as [Hr1|Hr1].
    + (* the text is a tick written out *)
      right. assert (EN' : N = 10 * q) by lia.
      assert (Hq1 : 1 <= q <= 251) by lia.
      rewrite EN' in Ev. rewrite (decimal_ticks_checked q Hq1) in Ev.
      rewrite <- Ev in Hn. rewrite (tick_round_trip q Hq1) in Hn.
      assert (n = q) by congruence. subst n.
      rewrite (bound_id q Hq1). exact Ev.
    + (* strictly between two ticks: both values ask for the same one *)
      left.
      pose proof (Qle_inject 1 r ltac:(lia)) as Hr1Q.
      change (inject_Z 1) with 1%Q in Hr1Q.
      set (qQ := inject_Z q) in *. set (rQ := inject_Z r) in *.
      set (nQ := inject_Z n) in *. set (kQ := inject_Z k) in *.
      set (NQ := inject_Z N) in *.
      assert (A1 : (nQ < qQ + 1)%Q) by (clearbody V X D qQ rQ nQ kQ NQ; lra).
      assert (A2 : (qQ < nQ + 1)%Q) by (clearbody V X D qQ rQ nQ kQ NQ; lra).
      assert (A3 : (kQ < qQ + 1)%Q) by (clearbody V X D qQ rQ nQ kQ NQ; lra).
      assert (A4 : (qQ < kQ + 1)%Q) by (clearbody V X D qQ rQ nQ kQ NQ; lra).
      apply Qlt_inject_le in A1, A2, A3, A4.
      assert (n = q) by lia. assert (k = q) by lia. subst n k.
      apply Hs. exact Hfit.
  - (* beyond the slider's range: both ticks are clamped to its end *)
    left.
    pose proof (Qle_inject 2520 N Hbig) as HbQ.
    change (inject_Z 2520) with 2520%Q in HbQ.
    set (nQ := inject_Z n) in *. set (kQ := inject_Z k) in *.
    set (NQ := inject_Z N) in *.
    assert (B1 : (inject_Z 251 < nQ + 1)%Q).
    { change (inject_Z 251) with 251%Q.
      clearbody V X D nQ kQ NQ. lra. }
    assert (B2 : (inject_Z 251 < kQ + 1)%Q).
    { change (inject_Z 251) with 251%Q.
      clearbody V X D nQ kQ NQ. lra. }
    apply Qlt_inject_le in B1, B2.
    assert (HNmax : N <= 21474836479).
    { destruct (Z_lt_le_dec N 21474836480) as [|Hge]; [lia|]. exfalso.
      destruct (Z.eq_dec N 21474836480) as [E0|Hne].
      - rewrite E0 in Ev. rewrite <- Ev in Hn.
        rewrite tick_at_int_max in Hn.
        assert (n = 2147483648) by congruence. lia.
      - pose proof (Qle_inject 21474836481 N ltac:(lia)) as HgQ.
        change (inject_Z 21474836481) with 21474836481%Q in HgQ.
        fold NQ in HgQ.
        clearbody V X D nQ kQ NQ. lra. }
    pose proof (Qle_inject N 21474836479 HNmax) as HmQ.
    change (inject_Z 21474836479) with 21474836479%Q in HmQ. fold NQ in HmQ.
    assert (B3 : (kQ < inject_Z 2147483647 + 1)%Q).
    { change (inject_Z 2147483647) with 2147483647%Q.
      clearbody V X D nQ kQ NQ. lra. }
    apply Qlt_inject_le in B3.
    assert (Hkfit : fits_c_int k = true).
    { unfold fits_c_int. apply andb_true_intro.
      split; [apply Z.leb_le | apply Z.ltb_lt];
        change (2 ^ 31) with 2147483648; lia. }
    rewrite <- (Hs Hkfit).
    unfold bound, slider_minimum, slider_maximum. rewrite SLIDER_MAX_eq. lia.
Qed.

(** C7, as it holds: in every state the program can reach, a positive
    finite value is printed as the decimal [N/100] nearest to it, at most
    0.005 away; committing that text makes the handler read [float] of that
    decimal, which (when finite) is within 0.005 plus [2^-52] of the decimal
    from the original.  If the float read is not positive the value is
    kept; otherwise the float read becomes the value, also when the slider
    moves on the way. *)
Theorem round_trip_through_text (f : nat) (ops : list op) (s : state)
        (m : positive) (e : Z) :
  Forall valid_op ops ->
  run np_sin (S f) ops (initial np_sin) = Some s ->
  x s = S754_finite false m e ->
  let txt := format_f 2 (x s) in
  let N := scaled_round 2 m e in
  let v := round_decimal false N (-2) in
  parse_decimal (list_ascii_of_string txt) = Some (N, -2)
  /\ (Qabs ((N # 100) - to_Q (x s)) <= 5 # 1000)%Q
  /\ py_float txt = Val v
  /\ (is_finite v = true ->
      (Qabs (to_Q v - to_Q (x s))
       <= (N # 100) * (1 # 2 ^ 52) + (5 # 1000))%Q)
  /\ exists s',
      settle (run_op np_sin (S f) (SetFromText txt) s) = Some s'
      /\ (ltb zero v = false -> x s' = x s)
      /\ (ltb zero v = true -> x s' = v).
Proof.
  intros Hops Hrun Hx. cbv zeta.
  pose proof (run_in_step f ops Hops _ _ in_step_initial Hrun) as Hstep.
  rewrite Hx.
  destruct (py_float_format 1 m e) as [Hd Hp]. cbv zeta in Hd, Hp.
  change (- Z.of_nat 2) with (-2) in Hd, Hp.
  split; [exact Hd|]. split; [apply scaled_round_close|].
  split; [exact Hp|].
  split.
  { intros Hfin.
    setoid_replace
      (to_Q (round_decimal false (scaled_round 2 m e) (-2))
       - to_Q (S754_finite false m e))%Q
      with ((to_Q (round_decimal false (scaled_round 2 m e) (-2))
             - (scaled_round 2 m e # 100))
            + ((scaled_round 2 m e # 100) - to_Q (S754_finite false m e)))%Q
      by ring.
    eapply Qle_trans; [apply Qabs_triangle|].
    apply Qplus_le_compat; [|apply scaled_round_close].
    apply round_decimal_close; [apply scaled_round_nonneg|exact Hfin]. }
  rewrite text_op_spec. cbv zeta. rewrite Hp.
  set (w := round_decimal false (scaled_round 2 m e) (-2)) in *.
  set (s0 := set_input_field (format_f 2 (S754_finite false m e)) s).
  destruct (ltb zero w) eqn:Hw.
  - unfold refresh_outcome.
    change (x (set_x w s0)) with w. change (slider (set_x w s0)) with (slider s).
    destruct (value_to_tick w) as [n|ex] eqn:Hn.
    + destruct (fits_c_int n) eqn:Hc.
      * destruct (round_trip_tick s m e n Hstep Hx Hw Hn Hc) as [Hb|Hb].
        -- rewrite Hb, Z.eqb_refl.
           eexists; split; [reflexivity|]. split; [discriminate|reflexivity].
        -- destruct (bound n =? slider s);
             (eexists; split; [reflexivity|]); (split; [discriminate|]);
             intros _; [reflexivity|exact Hb].
      * eexists; split; [reflexivity|]. split; [discriminate|reflexivity].
    + destruct ex.
      * change (x (set_x w s0)) with w. rewrite Hn.
        eexists; split; [reflexivity|]. split; [discriminate|reflexivity].
      * eexists; split; [reflexivity|]. split; [discriminate|reflexivity].
  - eexists; split; [reflexivity|]. split; [intros _|discriminate].
    cbn [x s0 set_input_field]. now rewrite Hx.
Qed.

(** The value 0.125 is reachable, is shown as "0.12", and committing that
    text stores the float nearest 0.12.  The two differ by more than the
    float 0.005 also when the difference is taken in binary64 arithmetic. *)
Lemma eighth_round_trip (f : nat) :
  exists s s',
    run np_sin (S f) [SetFromSlider 1; SetFromText "0.125"] (initial np_sin)
    = Some s
    /\ run np_sin (S f) [SetFromText (format_f 2 (x s))] s = Some s'
    /\ x s = S754_finite false 4503599627370496 (-55)
    /\ x s' = S754_finite false 8646911284551352 (-56)
    /\ exists tol, py_float "0.005" = Val tol
                   /\ ltb tol (sub (x s) (x s')) = true.
Proof.
  set (v := S754_finite false 4503599627370496 (-55)).
  set (w := S754_finite false 8646911284551352 (-56)).
  set (s1 := moved_to np_sin 1 (initial np_sin)).
  set (s2 := drawn np_sin
               (refreshed np_sin (set_x v (set_input_field "0.125" s1)))).
  set (s3 := drawn np_sin
               (refreshed np_sin (set_x w (set_input_field "0.12" s2)))).
  assert (B : bound 1 = 1) by (apply bound_id; lia).
  exists s2, s3. split; [|split; [|split; [reflexivity|split]]].
  3:{ reflexivity. }
  3:{ exists (S754_finite false 5764607523034235 (-60)).
      change (x s2) with v. change (x s3) with w.
      split; vm_compute; reflexivity. }
  - cbn [run]. rewrite slider_op_spec by lia. cbn [settle]. fold s1.
    rewrite (text_accepted_spec f "0.125" v 1); [|vm_compute; reflexivity ..].
    cbv zeta. rewrite B. reflexivity.
  - cbn [run]. change (x s2) with v.
    replace (format_f 2 v) with "0.12"%string by (vm_compute; reflexivity).
    rewrite (text_accepted_spec f "0.12" w 1); [|vm_compute; reflexivity ..].
    cbv zeta. rewrite B. reflexivity.
Qed.

(** A round trip that moves the slider: 6.296, typed with the slider at
    tick 62, is shown as "6.30"; committing that text asks for tick 63, and
    the value the slot stores for tick 63 is the float that "6.30" reads
    as. *)
Lemma shown_tick_moves_slider (f : nat) :
  exists s s',
    run np_sin (S f) [SetFromSlider 62; SetFromText "6.296"] (initial np_sin)
    = Some s
    /\ slider s = 62
    /\ format_f 2 (x s) = "6.30"%string
    /\ run np_sin (S f) [SetFromText (format_f 2 (x s))] s = Some s'
    /\ slider s' = 63
    /\ py_float "6.30" = Val (x s').
Proof.
  set (v := S754_finite false 7088665813481161 (-50)).
  set (w := S754_finite false 7093169413108531 (-50)).
  set (s1 := moved_to np_sin 62 (initial np_sin)).
  set (s2 := drawn np_sin
               (refreshed np_sin (set_x v (set_input_field "6.296" s1)))).
  set (s3 := drawn np_sin
               (moved_to np_sin 63 (set_x w (set_input_field "6.30" s2)))).
  assert (B2 : bound 62 = 62) by (apply bound_id; lia).
  assert (B3 : bound 63 = 63) by (apply bound_id; lia).
  assert (Ht : format_f 2 v = "6.30"%string) by (vm_compute; reflexivity).
  exists s2, s3. split; [|split; [reflexivity|split; [exact Ht|split]]].
  3:{ split; [reflexivity|]. change (x s3) with (int_truediv 63 10).
      vm_compute. reflexivity. }
  - cbn [run]. rewrite slider_op_spec by lia. cbn [settle]. fold s1.
    rewrite (text_accepted_spec f "6.296" v 62); [|vm_compute; reflexivity ..].
    cbv zeta. rewrite B2. reflexivity.
  - cbn [run]. change (x s2) with v. rewrite Ht.
    rewrite (text_accepted_spec f "6.30" w 63); [|vm_compute; reflexivity ..].
    cbv zeta. rewrite B3. reflexivity.
Qed.

(** ** The plot *)

(** C6: for a finite positive value, redrawing yields exactly 1000 samples
    that start at 0, end at the value and in between are the multiples of
    one step (the 999th part of the value); the curve is the sine of each
    sample, and the title shows the value to two decimals. *)
Theorem plot_regenerated (s : state) :
  is_finite (x s) = true -> valid (x s) = true -> ltb zero (x s) = true ->
  exists s',
    update_plot np_sin s = Return tt s'
    /\ x s' = x s
    /\ List.length (x_vals (axes s')) = 1000%nat
    /\ nth 0 (x_vals (axes s')) zero = zero
    /\ last (x_vals (axes s')) zero = x s
    /\ (forall i, (i < 999)%nat ->
          nth i (x_vals (axes s')) zero
          = let step := div (x s) (of_int 999) in
            if eqb step zero
            then mul (div (of_int (Z.of_nat i)) (of_int 999)) (x s)
            else mul (of_int (Z.of_nat i)) step)
    /\ y_vals (axes s') = map np_sin (x_vals (axes s'))
    /\ title (axes s') = ("sin(x): 0 to " ++ format_f 2 (x s))%string.
Proof.
  intros Hf Hv Hp. destruct (positive_finite _ Hf Hp) as [m [e Hx]].
  exists (drawn np_sin s). split; [reflexivity|].
  unfold drawn. cbn [x axes set_axes plot_of x_vals y_vals title].
  rewrite Hx in *. repeat split.
  - apply linspace_length.
  - now apply linspace_first.
  - apply linspace_last. lia.
  - intros i Hi. now rewrite linspace_nth by lia.
Qed.

(** C9: the last of the 1000 samples is the value itself, so the last point
    of the curve is the very sine the result label prints. *)
Theorem endpoint_agrees_with_label (v : float) :
  last (x_vals (plot_of np_sin v)) zero = v
  /\ last (y_vals (plot_of np_sin v)) zero = np_sin v
  /\ result_text np_sin v
     = ("sin(" ++ format_f 2 v ++ ") = "
        ++ format_f 4 (last (y_vals (plot_of np_sin v)) zero))%string.
Proof.
  assert (Hx : last (x_vals (plot_of np_sin v)) zero = v)
    by (apply linspace_last; lia).
  assert (Hy : last (y_vals (plot_of np_sin v)) zero = np_sin v).
  { cbn [plot_of y_vals]. unfold linspace.
    change (1 <? 1000)%nat with true. cbv iota. unfold set_last.
    rewrite map_app. exact (last_last _ (np_sin v) zero). }
  repeat split; auto. now rewrite Hy.
Qed.

End PlotterFacts.

(** * Further properties of the handlers *)

Section HandlerFacts.

Variable np_sin : float -> float.

(** ** Shapes of a refresh *)

Lemma refresh_return_shape (s s' : state) :
  refresh_outcome np_sin s = Return tt s' ->
  (s' = refreshed np_sin s
   /\ exists n, value_to_tick (x s) = Val n /\ fits_c_int n = true
                /\ bound n = slider s)
  \/ (exists t, 1 <= t <= 251 /\ s' = moved_to np_sin t s).
Proof.
  unfold refresh_outcome.
  destruct (value_to_tick (x s)) as [n|e]; [|discriminate].
  destruct (fits_c_int n) eqn:Hc; [|discriminate].
  destruct (bound n =? slider s) eqn:Hb; intros E; injection E as <-.
  - left. split; [reflexivity|]. exists n. apply Z.eqb_eq in Hb. auto.
  - right. exists (bound n). split; [apply bound_range|reflexivity].
Qed.

Lemma refresh_raise_shape (s s' : state) (e : exn) :
  refresh_outcome np_sin s = Raise e s' ->
  s' = s
  /\ (forall n, value_to_tick (x s) = Val n -> fits_c_int n = true -> False)
  /\ (value_to_tick (x s) = Exc e \/ e = OverflowError).
Proof.
  unfold refresh_outcome.
  destruct (value_to_tick (x s)) as [n|e0] eqn:Hn.
  - destruct (fits_c_int n) eqn:Hc.
    + destruct (bound n =? slider s); discriminate.
    + intros E. injection E as <- <-. split; [reflexivity|].
      split; [|now right]. intros k Hk Hf. congruence.
  - intros E. injection E as <- <-. split; [reflexivity|].
    split; [|now left]. intros k Hk. discriminate.
Qed.

Lemma refresh_never_out_of_fuel (s : state) :
  refresh_outcome np_sin s <> OutOfFuel.
Proof.
  destruct (refresh_outcome_cases np_sin s) as [[e H]|[H|[t [_ [_ H]]]]];
    rewrite H; discriminate.
Qed.

(** The window after a refresh of a new value [v], once redrawn. *)
Lemma settled_record (v : float) (s : state) :
  drawn np_sin (refreshed np_sin (set_x v s))
  = {| x := v; slider := slider s; input_field := format_f 2 v;
       result_label := result_text np_sin v; axes := plot_of np_sin v |}.
Proof. reflexivity. Qed.

Lemma initial_record :
  initial np_sin
  = {| x := X_MAX_DEFAULT; slider := 125;
       input_field := format_f 2 X_MAX_DEFAULT;
       result_label := result_text np_sin X_MAX_DEFAULT;
       axes := plot_of np_sin X_MAX_DEFAULT |}.
Proof.
  assert (B0 : bound 0 = 1) by (vm_compute; reflexivity).
  assert (B1 : bound 125 = 125) by (apply bound_id; lia).
  assert (T : value_to_tick X_MAX_DEFAULT = Val 125)
    by (vm_compute; reflexivity).
  cbv beta iota zeta delta
      [initial __init__ _setup_ui update_plot bind modify get lift ret
       QSlider_setValue settle drawn blank
       x slider input_field result_label axes
       set_x set_slider set_input_field set_result_label set_axes].
  rewrite T. cbv beta iota.
  change (fits_c_int 125) with true. cbv beta iota.
  rewrite B0, B1. change (125 =? 1) with false. cbv beta iota.
  reflexivity.
Qed.

(** ** Label and curve follow the value *)

Lemma shown_initial : shown np_sin (initial np_sin).
Proof. intros n _ _. rewrite initial_record. split; reflexivity. Qed.

Lemma shown_after_refresh (s s1 : state) :
  refresh_outcome np_sin s = Return tt s1 ->
  displayed np_sin (drawn np_sin s1).
Proof.
  intros E. destruct (refresh_return_shape s s1 E) as [[-> _]|[t [_ ->]]];
    split; reflexivity.
Qed.

Lemma step_shown (f : nat) (o : op) (s : state) :
  valid_op o -> shown np_sin s ->
  forall s', settle (run_op np_sin (S f) o s) = Some s' -> shown np_sin s'.
Proof.
  intros Ho Hs s'. destruct o as [t|raw|].
  - cbn [valid_op] in Ho. unfold slider_minimum, slider_maximum in Ho.
    rewrite SLIDER_MAX_eq in Ho.
    rewrite slider_op_spec by exact Ho. intros E. injection E as <-.
    intros n _ _. split; reflexivity.
  - rewrite text_op_spec. cbv zeta.
    assert (H0 : shown np_sin (set_input_field raw s)) by exact Hs.
    destruct (py_float raw) as [v|[|]].
    + destruct (ltb zero v).
      * destruct (refresh_outcome np_sin (set_x v (set_input_field raw s)))
          as [[] s1|ex s1|] eqn:E1.
        -- intros E. injection E as <-. intros n _ _.
           exact (shown_after_refresh _ _ E1).
        -- destruct (refresh_raise_shape _ _ _ E1) as [-> [Hno _]].
           assert (E : settle (match ex with
                               | ValueError =>
                                   refresh_outcome np_sin
                                     (set_x v (set_input_field raw s))
                               | OverflowError =>
                                   Raise ex (set_x v (set_input_field raw s))
                               end)
                       = Some (set_x v (set_input_field raw s))).
           { destruct ex; [rewrite E1|]; reflexivity. }
           intros E'.
           assert (Es : s' = set_x v (set_input_field raw s)).
           { destruct ex; rewrite E in E'; now injection E' as <-. }
           rewrite Es. intros n Hn Hf. destruct (Hno n Hn Hf).
        -- discriminate.
      * intros E. injection E as <-. exact H0.
    + destruct (refresh_outcome np_sin (set_input_field raw s))
        as [[] s1|ex s1|] eqn:E1; unfold settle.
      * intros E. injection E as <-.
        destruct (refresh_return_shape _ _ E1) as [[-> [n [Hn [Hf _]]]]|[t [_ ->]]].
        -- intros _ _ _. destruct (Hs n Hn Hf) as [_ Ha].
           split; [reflexivity|exact Ha].
        -- intros _ _ _. split; reflexivity.
      * intros E. injection E as <-.
        destruct (refresh_raise_shape _ _ _ E1) as [-> _]. exact H0.
      * discriminate.
    + intros E. injection E as <-. exact H0.
  - rewrite reset_op_spec.
    destruct (refresh_outcome np_sin (set_x X_MAX_DEFAULT s))
      as [[] s1|ex s1|] eqn:E1; unfold settle.
    + intros E. injection E as <-. intros n _ _.
      exact (shown_after_refresh _ _ E1).
    + intros E. injection E as <-.
      destruct (refresh_raise_shape _ _ _ E1) as [-> [Hno _]].
      intros n Hn Hf. destruct (Hno n Hn Hf).
    + discriminate.
Qed.

Lemma run_shown (f : nat) (ops : list op) :
  Forall valid_op ops ->
  forall s s', shown np_sin s -> run np_sin (S f) ops s = Some s' ->
               shown np_sin s'.
Proof.
  induction 1 as [|o ops Ho _ IH]; intros s s' Hs E; cbn [run] in E.
  - injection E as <-. exact Hs.
  - destruct (settle (run_op np_sin (S f) o s)) as [s1|] eqn:E1;
      [|discriminate].
    apply (IH s1 s'); [|exact E].
    now apply (step_shown f o s).
Qed.

(** X1: in every state the program reaches, if the value's tick can be
    computed and handed to the slider, then the slider stands at that tick
    clamped to its range, and label and curve are those of the value. *)
Theorem surfaces_follow_value (f : nat) (ops : list op) (s : state) (n : Z) :
  Forall valid_op ops ->
  run np_sin (S f) ops (initial np_sin) = Some s ->
  value_to_tick (x s) = Val n -> fits_c_int n = true ->
  slider s = bound n
  /\ result_label s = result_text np_sin (x s)
  /\ axes s = plot_of np_sin (x s).
Proof.
  intros Hops Hrun Hn Hf.
  pose proof (run_in_step np_sin f ops Hops _ _ (in_step_initial np_sin) Hrun)
    as H1.
  pose proof (run_shown f ops Hops _ _ shown_initial Hrun) as H2.
  destruct (H2 n Hn Hf) as [Hl Ha].
  split; [symmetry; exact (H1 n Hn Hf)|]. split; assumption.
Qed.

(** X13: in every state the program reaches the slider is within its range
    [1, 251]. *)
Theorem slider_stays_in_range (f : nat) (ops : list op) (s : state) :
  Forall valid_op ops ->
  run np_sin (S f) ops (initial np_sin) = Some s ->
  1 <= slider s <= 251 /\ slider_maximum = 251.
Proof.
  intros Hops Hrun.
  destruct (run_well_formed np_sin f ops Hops _ (well_formed_initial np_sin))
    as [s1 [E [_ Hr]]].
  rewrite Hrun in E. injection E as <-.
  unfold slider_minimum, slider_maximum in *. rewrite SLIDER_MAX_eq in *.
  split; [exact Hr|reflexivity].
Qed.

(** ** Termination *)

(** X2: a handler call needs no more than one nested delivery of
    [valueChanged]: with any positive budget it ends, and with the same
    outcome as with the least one. *)
Theorem handlers_terminate (f : nat) (o : op) (s : state) :
  valid_op o ->
  run_op np_sin (S f) o s = run_op np_sin 1 o s
  /\ run_op np_sin (S f) o s <> OutOfFuel.
Proof.
  intros Ho. destruct o as [t|raw|].
  - cbn [valid_op] in Ho. unfold slider_minimum, slider_maximum in Ho.
    rewrite SLIDER_MAX_eq in Ho.
    rewrite !slider_op_spec by exact Ho. split; [reflexivity|discriminate].
  - rewrite !text_op_spec. split; [reflexivity|]. cbv zeta.
    destruct (py_float raw) as [v|[|]]; try discriminate.
    + destruct (ltb zero v); [|discriminate].
      pose proof (refresh_never_out_of_fuel (set_x v (set_input_field raw s))).
      destruct (refresh_outcome np_sin (set_x v (set_input_field raw s)))
        as [[] s1|[|] s1|] eqn:E1; try discriminate; try congruence.
      destruct (refresh_raise_shape _ _ _ E1) as [-> _]. now rewrite E1.
    + apply refresh_never_out_of_fuel.
  - rewrite !reset_op_spec. split; [reflexivity|].
    pose proof (refresh_never_out_of_fuel (set_x X_MAX_DEFAULT s)).
    destruct (refresh_outcome np_sin (set_x X_MAX_DEFAULT s));
      try discriminate; congruence.
Qed.

(** ** Slider events *)

(** X3: a slider event at a tick of the range leaves a window that depends
    on the tick alone, whatever the window was before; so repeating the
    event changes nothing. *)
Theorem slider_event_determines_window (f : nat) (t : Z) (s1 s2 : state) :
  slider_minimum <= t <= slider_maximum ->
  run_op np_sin (S f) (SetFromSlider t) s1
  = run_op np_sin (S f) (SetFromSlider t) s2
  /\ run np_sin (S f) [SetFromSlider t; SetFromSlider t] s1
     = run np_sin (S f) [SetFromSlider t] s1.
Proof.
  intros Ht. unfold slider_minimum, slider_maximum in Ht.
  rewrite SLIDER_MAX_eq in Ht. cbn [run].
  rewrite !slider_op_spec by exact Ht. cbn [settle].
  rewrite !slider_op_spec by exact Ht. split; reflexivity.
Qed.

(** X11: every tick of the range survives the trip to a value and back, so
    a slider event never moves the slider again; and different ticks give
    different values. *)
Theorem tick_value_tick (t u : Z) :
  slider_minimum <= t <= slider_maximum ->
  slider_minimum <= u <= slider_maximum ->
  value_to_tick (int_truediv t SLIDER_SCALE_FACTOR) = Val t
  /\ (int_truediv t SLIDER_SCALE_FACTOR = int_truediv u SLIDER_SCALE_FACTOR ->
      t = u).
Proof.
  unfold slider_minimum, slider_maximum. rewrite SLIDER_MAX_eq.
  intros Ht Hu. split; [now apply tick_round_trip|].
  intros E. pose proof (tick_round_trip t Ht) as H1.
  rewrite E, (tick_round_trip u Hu) in H1. now injection H1.
Qed.

(** ** Reset *)

(** X4: two resets in a row bring the window back to exactly the state the
    constructor built, from any state; one reset does when the slider
    already stands at tick 125. *)
Theorem reset_twice_restores_initial (f : nat) (s : state) :
  run np_sin (S f) [Reset; Reset] s = Some (initial np_sin)
  /\ run np_sin (S f) [Reset] (set_slider 125 s) = Some (initial np_sin).
Proof.
  assert (H : forall s0, slider s0 = 125 ->
                         run_op np_sin (S f) Reset s0
                         = Return tt (initial np_sin)).
  { intros s0 H0. rewrite reset_at_default_tick by exact H0.
    rewrite settled_record, H0, initial_record. reflexivity. }
  split.
  - cbn [run]. rewrite reset_spec. cbv zeta.
    destruct (125 =? slider s) eqn:Hb; cbn [settle].
    + apply Z.eqb_eq in Hb. rewrite H by (cbn; now symmetry). reflexivity.
    + rewrite H by reflexivity. reflexivity.
  - cbn [run]. now rewrite H.
Qed.

(** ** Accepted text *)



(** ** Rejected text *)

(** X7: in every state the program reaches, a text that is not a number
    leaves value, slider and curve as they were; and when the value's tick
    can be computed and handed to the slider, field and label are rewritten
    from the value. *)
Theorem nonnumeric_text_keeps_window (f : nat) (ops : list op) (s : state)
        (raw : string) :
  Forall valid_op ops ->
  run np_sin (S f) ops (initial np_sin) = Some s ->
  py_float raw = Exc ValueError ->
  exists s',
    settle (run_op np_sin (S f) (SetFromText raw) s) = Some s'
    /\ x s' = x s /\ slider s' = slider s /\ axes s' = axes s
    /\ (forall n, value_to_tick (x s) = Val n -> fits_c_int n = true ->
                  input_field s' = format_f 2 (x s)
                  /\ result_label s' = result_text np_sin (x s)).
Proof.
  intros Hops Hrun Hp.
  pose proof (run_in_step np_sin f ops Hops _ _ (in_step_initial np_sin) Hrun)
    as Hs.
  rewrite text_op_spec. cbv zeta. rewrite Hp.
  unfold refresh_outcome. cbn [x slider set_input_field].
  destruct (value_to_tick (x s)) as [n|e] eqn:Hn.
  - destruct (fits_c_int n) eqn:Hc.
    + rewrite (Hs n Hn Hc), Z.eqb_refl. eexists. split; [reflexivity|].
      do 3 (split; [reflexivity|]). intros k _ _. split; reflexivity.
    + eexists. split; [reflexivity|].
      do 3 (split; [reflexivity|]). intros k Hk Hf. congruence.
  - eexists. split; [reflexivity|].
    do 3 (split; [reflexivity|]). intros k Hk. discriminate.
Qed.

(** X8: a text that [float] reads as a number that is not above zero (a
    negative number, zero, NaN, minus infinity) is ignored without any
    exception: value, slider, label and curve stay as they were. *)
Theorem not_positive_text_ignored (f : nat) (raw : string) (v : float)
        (s : state) :
  py_float raw = Val v -> ltb zero v = false ->
  exists s',
    run_op np_sin (S f) (SetFromText raw) s = Return tt s'
    /\ x s' = x s /\ slider s' = slider s
    /\ result_label s' = result_label s /\ axes s' = axes s.
Proof.
  intros Hp Hv. rewrite (nonpositive_text_spec np_sin f raw v s Hp Hv).
  eexists. split; [reflexivity|]. do 3 (split; [reflexivity|]). reflexivity.
Qed.

(** ** Values too large for the slider *)

(** X9: an accepted text whose value times ten overflows to infinity makes
    [int] raise [OverflowError], which the handler does not catch: the value
    is stored, but slider, label and curve are left as they were and the
    field keeps the text as typed. *)
Theorem overflow_escapes_text_handler (f : nat) (raw : string) (v : float)
        (s : state) :
  py_float raw = Val v -> ltb zero v = true ->
  value_to_tick v = Exc OverflowError ->
  run_op np_sin (S f) (SetFromText raw) s
  = Raise OverflowError (set_x v (set_input_field raw s)).
Proof.
  intros Hp Hv Hn. rewrite text_op_spec. cbv zeta. rewrite Hp, Hv.
  unfold refresh_outcome. cbn [x set_x]. rewrite Hn. reflexivity.
Qed.

(** X10: while the stored value is one whose tick overflows, the revert of
    a non-numeric text fails too: [_update_ui_values] raises inside the
    [except] branch, and only the field changes, to the text as typed. *)
Theorem revert_fails_after_overflow (f : nat) (raw : string) (s : state) :
  py_float raw = Exc ValueError ->
  value_to_tick (x s) = Exc OverflowError ->
  run_op np_sin (S f) (SetFromText raw) s
  = Raise OverflowError (set_input_field raw s).
Proof.
  intros Hp Hn. rewrite text_op_spec. cbv zeta. rewrite Hp.
  unfold refresh_outcome. cbn [x set_input_field]. rewrite Hn. reflexivity.
Qed.

(** ** The curve *)

Lemma step_curve_drawn (f : nat) (o : op) (s : state) :
  valid_op o -> curve_drawn np_sin s ->
  forall s', settle (run_op np_sin (S f) o s) = Some s' ->
             curve_drawn np_sin s'.
Proof.
  intros Ho Hs s'.
  assert (Hk : forall s0 : state, axes s0 = axes s -> curve_drawn np_sin s0).
  { intros s0 E. destruct Hs as [w Hw]. exists w. now rewrite E. }
  assert (Hr : forall s0 s1, axes s0 = axes s ->
                 settle (refresh_outcome np_sin s0) = Some s1 ->
                 curve_drawn np_sin s1).
  { intros s0 s1 E0 E1.
    destruct (refresh_outcome np_sin s0) as [[] s2|ex s2|] eqn:E2;
      cbn [settle] in E1; try discriminate; injection E1 as <-.
    - destruct (refresh_return_shape _ _ E2) as [[-> _]|[t [_ ->]]].
      + apply Hk. exact E0.
      + eexists. reflexivity.
    - destruct (refresh_raise_shape _ _ _ E2) as [-> _]. now apply Hk. }
  destruct o as [t|raw|].
  - cbn [valid_op] in Ho. unfold slider_minimum, slider_maximum in Ho.
    rewrite SLIDER_MAX_eq in Ho.
    rewrite slider_op_spec by exact Ho. intros E. injection E as <-.
    eexists. reflexivity.
  - rewrite text_op_spec. cbv zeta.
    destruct (py_float raw) as [v|[|]].
    + destruct (ltb zero v).
      * destruct (refresh_outcome np_sin (set_x v (set_input_field raw s)))
          as [[] s1|[|] s1|] eqn:E1.
        -- intros E. injection E as <-. eexists. reflexivity.
        -- apply (Hr s1). destruct (refresh_raise_shape _ _ _ E1) as [-> _].
           reflexivity.
        -- intros E. injection E as <-.
           destruct (refresh_raise_shape _ _ _ E1) as [-> _]. now apply Hk.
        -- discriminate.
      * intros E. injection E as <-. now apply Hk.
    + apply Hr. reflexivity.
    + intros E. injection E as <-. now apply Hk.
  - rewrite reset_op_spec.
    destruct (refresh_outcome np_sin (set_x X_MAX_DEFAULT s))
      as [[] s1|ex s1|] eqn:E1; unfold settle.
    + intros E. injection E as <-. eexists. reflexivity.
    + intros E. injection E as <-.
      destruct (refresh_raise_shape _ _ _ E1) as [-> _]. now apply Hk.
    + discriminate.
Qed.

Lemma run_curve_drawn (f : nat) (ops : list op) :
  Forall valid_op ops ->
  forall s s', curve_drawn np_sin s -> run np_sin (S f) ops s = Some s' ->
               curve_drawn np_sin s'.
Proof.
  induction 1 as [|o ops Ho _ IH]; intros s s' Hs E; cbn [run] in E.
  - injection E as <-. exact Hs.
  - destruct (settle (run_op np_sin (S f) o s)) as [s1|] eqn:E1;
      [|discriminate].
    apply (IH s1 s'); [|exact E].
    now apply (step_curve_drawn f o s).
Qed.

(** X12: in every state the program reaches, also after an exception, the
    curve has exactly 1000 points, each y is the sine of its x, the axes are
    labelled "x" and "y", and the title names the curve's last x-sample to
    two decimals. *)
Theorem curve_always_well_shaped (f : nat) (ops : list op) (s : state) :
  Forall valid_op ops ->
  run np_sin (S f) ops (initial np_sin) = Some s ->
  List.length (x_vals (axes s)) = 1000%nat
  /\ y_vals (axes s) = map np_sin (x_vals (axes s))
  /\ title (axes s)
     = ("sin(x): 0 to " ++ format_f 2 (last (x_vals (axes s)) zero))%string
  /\ xlabel (axes s) = "x"%string /\ ylabel (axes s) = "y"%string.
Proof.
  intros Hops Hrun.
  assert (H0 : curve_drawn np_sin (initial np_sin)).
  { exists X_MAX_DEFAULT. now rewrite initial_record. }
  destruct (run_curve_drawn f ops Hops _ _ H0 Hrun) as [w Hw].
  rewrite Hw. cbn [plot_of x_vals y_vals title xlabel ylabel].
  rewrite linspace_length, linspace_last by lia.
  do 4 (split; [reflexivity|]). reflexivity.
Qed.

End HandlerFacts.

(** * Closed instances

    [np.sin] is instantiated by the identity where a concrete function is
    needed: none of the facts below depends on which function it is. *)

(** C7 as stated fails: the round trip can miss the tolerance of 0.005.  At
    the reachable value 0.125 the field shows "0.12", which reads back as
    the float nearest 0.12, 0.0050000000000000044 away. *)
Lemma round_trip_exceeds_tolerance :
  ~ (forall (np_sin : float -> float) (fuel : nat) (ops : list op)
            (s s' : state),
        Forall (valid_op) ops ->
        run np_sin fuel ops (initial np_sin) = Some s ->
        run np_sin fuel [SetFromText (format_f 2 (x s))] s = Some s' ->
        (Qabs (to_Q (x s') - to_Q (x s)) <= 5 # 1000)%Q).
Proof.
  intros H.
  destruct (eighth_round_trip (fun v => v) 0) as [s [s' [E1 [E2 [Hx [Hx' _]]]]]].
  assert (Hv : Forall valid_op [SetFromSlider 1; SetFromText "0.125"]).
  { repeat constructor; vm_compute; discriminate. }
  specialize (H _ _ _ _ _ Hv E1 E2). rewrite Hx, Hx' in H.
  vm_compute in H. apply H. reflexivity.
Qed.

(** The positivity invariant, on a slider move, a rejected text and a
    reset. *)
Lemma value_stays_positive_witness :
  Forall valid_op [SetFromSlider 1; SetFromText "-5"; Reset]
  /\ exists s,
      run (fun v => v) 1 [SetFromSlider 1; SetFromText "-5"; Reset]
          (initial (fun v => v)) = Some s
      /\ ltb zero (x s) = true
      /\ forall raw v,
          py_float raw = Val v -> ltb zero v = false ->
          exists s',
            settle (run_op (fun v => v) 1 (SetFromText raw) s) = Some s'
            /\ x s' = x s.
Proof.
  assert (H : Forall valid_op [SetFromSlider 1; SetFromText "-5"; Reset]).
  { repeat constructor; vm_compute; discriminate. }
  split; [exact H|].
  exact (value_stays_positive (fun v => v) 0 _ H).
Defined.

(** The slider at tick 1, from the initial state. *)
Lemma slider_sets_value_witness :
  slider_minimum <= 1 <= slider_maximum
  /\ ((exists s',
         run_op (fun v => v) 1 (SetFromSlider 1) (initial (fun v => v))
         = Return tt s'
         /\ x s' = int_truediv 1 SLIDER_SCALE_FACTOR
         /\ slider s' = 1
         /\ input_field s' = format_f 2 (x s')
         /\ result_label s'
            = ("sin(" ++ format_f 2 (x s') ++ ") = "
               ++ format_f 4 (x s'))%string
         /\ nth 0 (x_vals (axes s')) zero = zero
         /\ last (x_vals (axes s')) zero = x s')
      /\ py_float "0.1" = Val (int_truediv 1 SLIDER_SCALE_FACTOR)).
Proof.
  assert (H : slider_minimum <= 1 <= slider_maximum).
  { split; vm_compute; discriminate. }
  split; [exact H|].
  exact (slider_sets_value (fun v => v) 0 1 (initial (fun v => v)) H).
Defined.

(** Redrawing in the initial state, where the value is 4*pi. *)
Lemma plot_regenerated_witness :
  is_finite (x (initial (fun v => v))) = true
  /\ valid (x (initial (fun v => v))) = true
  /\ ltb zero (x (initial (fun v => v))) = true
  /\ exists s',
      update_plot (fun v => v) (initial (fun v => v)) = Return tt s'
      /\ x s' = x (initial (fun v => v))
      /\ List.length (x_vals (axes s')) = 1000%nat
      /\ nth 0 (x_vals (axes s')) zero = zero
      /\ last (x_vals (axes s')) zero = x (initial (fun v => v))
      /\ (forall i, (i < 999)%nat ->
            nth i (x_vals (axes s')) zero
            = let step := div (x (initial (fun v => v))) (of_int 999) in
              if eqb step zero
              then mul (div (of_int (Z.of_nat i)) (of_int 999))
                       (x (initial (fun v => v)))
              else mul (of_int (Z.of_nat i)) step)
      /\ y_vals (axes s') = map (fun v => v) (x_vals (axes s'))
      /\ title (axes s')
         = ("sin(x): 0 to " ++ format_f 2 (x (initial (fun v => v))))%string.
Proof.
  assert (H1 : is_finite (x (initial (fun v => v))) = true)
    by (vm_compute; reflexivity).
  assert (H2 : valid (x (initial (fun v => v))) = true)
    by (vm_compute; reflexivity).
  assert (H3 : ltb zero (x (initial (fun v => v))) = true)
    by (vm_compute; reflexivity).
  split; [exact H1|]. split; [exact H2|]. split; [exact H3|].
  exact (plot_regenerated (fun v => v) (initial (fun v => v)) H1 H2 H3).
Defined.

(** The round trip after the slider was put at tick 62 and "6.296" typed:
    the field shows "6.30", and committing it moves the slider to 63. *)
Lemma round_trip_through_text_witness :
  let sin := fun v : float => v in
  let ops := [SetFromSlider 62; SetFromText "6.296"] in
  let m := 7088665813481161%positive in
  let s := drawn sin
             (refreshed sin
                (set_x (S754_finite false m (-50))
                   (set_input_field "6.296" (moved_to sin 62 (initial sin))))) in
  Forall valid_op ops
  /\ run sin 1 ops (initial sin) = Some s
  /\ x s = S754_finite false m (-50)
  /\ (let txt := format_f 2 (x s) in
      let N := scaled_round 2 m (-50) in
      let v := round_decimal false N (-2) in
      parse_decimal (list_ascii_of_string txt) = Some (N, -2)
      /\ (Qabs ((N # 100) - to_Q (x s)) <= 5 # 1000)%Q
      /\ py_float txt = Val v
      /\ (is_finite v = true ->
          (Qabs (to_Q v - to_Q (x s))
           <= (N # 100) * (1 # 2 ^ 52) + (5 # 1000))%Q)
      /\ exists s',
          settle (run_op sin 1 (SetFromText txt) s) = Some s'
          /\ (ltb zero v = false -> x s' = x s)
          /\ (ltb zero v = true -> x s' = v)).
Proof.
  intros sin ops m s.
  assert (H1 : Forall valid_op ops).
  { repeat constructor; vm_compute; discriminate. }
  assert (H2 : run sin 1 ops (initial sin) = Some s).
  { unfold ops. cbn [run]. rewrite slider_op_spec by lia. cbn [settle].
    rewrite (text_accepted_spec sin 0 "6.296" (S754_finite false m (-50)) 62);
      [|vm_compute; reflexivity ..].
    cbv zeta. rewrite (bound_id 62) by lia. reflexivity. }
  assert (H3 : x s = S754_finite false m (-50)) by reflexivity.
  split; [exact H1|]. split; [exact H2|]. split; [exact H3|].
  exact (round_trip_through_text sin 0 ops s m (-50) H1 H2 H3).
Defined.

(** A refresh in the initial state asks for tick 125. *)
Lemma refresh_sets_truncated_tick_witness :
  let s := initial (fun v => v) in
  value_to_tick (x s) = Val 125
  /\ fits_c_int 125 = true
  /\ ((exists s',
         _update_ui_values (fun v => v) 1 s = Return tt s'
         /\ slider s' = bound 125
         /\ (slider_minimum <= 125 <= slider_maximum -> slider s' = 125))
      /\ (let q := to_Q (mul (x s) (of_int SLIDER_SCALE_FACTOR)) in
          125 = Z.quot (Qnum q) (Zpos (Qden q)))
      /\ (exists v, py_float "6.28" = Val v /\ value_to_tick v = Val 62)
      /\ (exists v, py_float "6.29" = Val v /\ value_to_tick v = Val 62)).
Proof.
  intros s.
  assert (H1 : value_to_tick (x s) = Val 125) by (vm_compute; reflexivity).
  assert (H2 : fits_c_int 125 = true) by reflexivity.
  split; [exact H1|]. split; [exact H2|].
  exact (refresh_sets_truncated_tick (fun v => v) 0 s 125 H1 H2).
Defined.

(** ** Instances of the further properties *)

(** The window after a slider event at tick 7. *)
Lemma surfaces_follow_value_witness :
  let sin := fun v : float => v in
  let s := moved_to sin 7 (initial sin) in
  Forall valid_op [SetFromSlider 7]
  /\ run sin 1 [SetFromSlider 7] (initial sin) = Some s
  /\ value_to_tick (x s) = Val 7
  /\ fits_c_int 7 = true
  /\ (slider s = bound 7
      /\ result_label s = result_text sin (x s)
      /\ axes s = plot_of sin (x s)).
Proof.
  intros sin s.
  assert (H1 : Forall valid_op [SetFromSlider 7]).
  { repeat constructor; vm_compute; discriminate. }
  assert (H2 : run sin 1 [SetFromSlider 7] (initial sin) = Some s).
  { cbn [run]. rewrite slider_op_spec by lia. reflexivity. }
  assert (H3 : value_to_tick (x s) = Val 7) by (vm_compute; reflexivity).
  assert (H4 : fits_c_int 7 = true) by reflexivity.
  split; [exact H1|]. split; [exact H2|]. split; [exact H3|].
  split; [exact H4|].
  exact (surfaces_follow_value sin 0 _ s 7 H1 H2 H3 H4).
Defined.

Lemma slider_stays_in_range_witness :
  let sin := fun v : float => v in
  let s := moved_to sin 7 (initial sin) in
  Forall valid_op [SetFromSlider 7]
  /\ run sin 1 [SetFromSlider 7] (initial sin) = Some s
  /\ (1 <= slider s <= 251 /\ slider_maximum = 251).
Proof.
  intros sin s.
  assert (H1 : Forall valid_op [SetFromSlider 7]).
  { repeat constructor; vm_compute; discriminate. }
  assert (H2 : run sin 1 [SetFromSlider 7] (initial sin) = Some s).
  { cbn [run]. rewrite slider_op_spec by lia. reflexivity. }
  split; [exact H1|]. split; [exact H2|].
  exact (slider_stays_in_range sin 0 _ s H1 H2).
Defined.

Lemma handlers_terminate_witness :
  let sin := fun v : float => v in
  valid_op (SetFromText "6.28")
  /\ (run_op sin 3 (SetFromText "6.28") (initial sin)
      = run_op sin 1 (SetFromText "6.28") (initial sin)
      /\ run_op sin 3 (SetFromText "6.28") (initial sin) <> OutOfFuel).
Proof.
  intros sin. split; [exact I|].
  exact (handlers_terminate sin 2 (SetFromText "6.28") (initial sin) I).
Defined.

Lemma slider_event_determines_window_witness :
  let sin := fun v : float => v in
  slider_minimum <= 7 <= slider_maximum
  /\ (run_op sin 1 (SetFromSlider 7) (initial sin)
      = run_op sin 1 (SetFromSlider 7) (blank)
      /\ run sin 1 [SetFromSlider 7; SetFromSlider 7] (initial sin)
         = run sin 1 [SetFromSlider 7] (initial sin)).
Proof.
  intros sin.
  assert (H : slider_minimum <= 7 <= slider_maximum).
  { split; vm_compute; discriminate. }
  split; [exact H|].
  exact (slider_event_determines_window sin 0 7 (initial sin) blank H).
Defined.

Lemma tick_value_tick_witness :
  slider_minimum <= 1 <= slider_maximum
  /\ slider_minimum <= 251 <= slider_maximum
  /\ (value_to_tick (int_truediv 1 SLIDER_SCALE_FACTOR) = Val 1
      /\ (int_truediv 1 SLIDER_SCALE_FACTOR
          = int_truediv 251 SLIDER_SCALE_FACTOR -> 1 = 251)).
Proof.
  assert (H1 : slider_minimum <= 1 <= slider_maximum).
  { split; vm_compute; discriminate. }
  assert (H2 : slider_minimum <= 251 <= slider_maximum).
  { split; vm_compute; discriminate. }
  split; [exact H1|]. split; [exact H2|].
  exact (tick_value_tick 1 251 H1 H2).
Defined.



(** "abc" committed after a slider event at tick 7. *)
Lemma nonnumeric_text_keeps_window_witness :
  let sin := fun v : float => v in
  let s := moved_to sin 7 (initial sin) in
  Forall valid_op [SetFromSlider 7]
  /\ run sin 1 [SetFromSlider 7] (initial sin) = Some s
  /\ py_float "abc" = Exc ValueError
  /\ exists s',
      settle (run_op sin 1 (SetFromText "abc") s) = Some s'
      /\ x s' = x s /\ slider s' = slider s /\ axes s' = axes s
      /\ (forall n, value_to_tick (x s) = Val n -> fits_c_int n = true ->
                    input_field s' = format_f 2 (x s)
                    /\ result_label s' = result_text sin (x s)).
Proof.
  intros sin s.
  assert (H1 : Forall valid_op [SetFromSlider 7]).
  { repeat constructor; vm_compute; discriminate. }
  assert (H2 : run sin 1 [SetFromSlider 7] (initial sin) = Some s).
  { cbn [run]. rewrite slider_op_spec by lia. reflexivity. }
  assert (H3 : py_float "abc" = Exc ValueError) by (vm_compute; reflexivity).
  split; [exact H1|]. split; [exact H2|]. split; [exact H3|].
  exact (nonnumeric_text_keeps_window sin 0 _ s "abc" H1 H2 H3).
Defined.

(** "nan" is read by [float] and then ignored. *)
Lemma not_positive_text_ignored_witness :
  let sin := fun v : float => v in
  let s := initial sin in
  py_float "nan" = Val S754_nan
  /\ ltb zero S754_nan = false
  /\ exists s',
      run_op sin 1 (SetFromText "nan") s = Return tt s'
      /\ x s' = x s /\ slider s' = slider s
      /\ result_label s' = result_label s /\ axes s' = axes s.
Proof.
  intros sin s.
  assert (H1 : py_float "nan" = Val S754_nan) by (vm_compute; reflexivity).
  assert (H2 : ltb zero S754_nan = false) by reflexivity.
  split; [exact H1|]. split; [exact H2|].
  exact (not_positive_text_ignored sin 0 "nan" S754_nan s H1 H2).
Defined.

(** "inf" committed in the initial state. *)
Lemma overflow_escapes_text_handler_witness :
  let sin := fun v : float => v in
  let v := S754_infinity false in
  py_float "inf" = Val v
  /\ ltb zero v = true
  /\ value_to_tick v = Exc OverflowError
  /\ run_op sin 1 (SetFromText "inf") (initial sin)
     = Raise OverflowError (set_x v (set_input_field "inf" (initial sin))).
Proof.
  intros sin v.
  assert (H1 : py_float "inf" = Val v) by (vm_compute; reflexivity).
  assert (H2 : ltb zero v = true) by reflexivity.
  assert (H3 : value_to_tick v = Exc OverflowError) by reflexivity.
  split; [exact H1|]. split; [exact H2|]. split; [exact H3|].
  exact (overflow_escapes_text_handler sin 0 "inf" v (initial sin) H1 H2 H3).
Defined.

(** "abc" committed while the stored value is infinite. *)
Lemma revert_fails_after_overflow_witness :
  let sin := fun v : float => v in
  let s := set_x (S754_infinity false) (set_input_field "inf" (initial sin)) in
  py_float "abc" = Exc ValueError
  /\ value_to_tick (x s) = Exc OverflowError
  /\ run_op sin 1 (SetFromText "abc") s
     = Raise OverflowError (set_input_field "abc" s).
Proof.
  intros sin s.
  assert (H1 : py_float "abc" = Exc ValueError) by (vm_compute; reflexivity).
  assert (H2 : value_to_tick (x s) = Exc OverflowError) by reflexivity.
  split; [exact H1|]. split; [exact H2|].
  exact (revert_fails_after_overflow sin 0 "abc" s H1 H2).
Defined.

(** The curve after "inf" has been committed and the handler has raised. *)
Lemma curve_always_well_shaped_witness :
  let sin := fun v : float => v in
  let s := set_x (S754_infinity false) (set_input_field "inf" (initial sin)) in
  Forall valid_op [SetFromText "inf"]
  /\ run sin 1 [SetFromText "inf"] (initial sin) = Some s
  /\ (List.length (x_vals (axes s)) = 1000%nat
      /\ y_vals (axes s) = map sin (x_vals (axes s))
      /\ title (axes s)
         = ("sin(x): 0 to " ++ format_f 2 (last (x_vals (axes s)) zero))%string
      /\ xlabel (axes s) = "x"%string /\ ylabel (axes s) = "y"%string).
Proof.
  intros sin s.
  assert (H1 : Forall valid_op [SetFromText "inf"]).
  { repeat constructor. }
  assert (H2 : run sin 1 [SetFromText "inf"] (initial sin) = Some s).
  { cbn [run]. rewrite text_op_spec. cbv zeta.
    replace (py_float "inf") with (Val (S754_infinity false))
      by (vm_compute; reflexivity).
    reflexivity. }
  split; [exact H1|]. split; [exact H2|].
  exact (curve_always_well_shaped sin 0 _ s H1 H2).
Defined.
